(** * Card / chunk data management of cline-for-writing, shallow embedding

    Embedding of [src/src/utils/CardUtils.ts], [src/src/storage/CardStorage.ts]
    and [src/src/services/CardManager.ts] (the file-backed manager), plus the
    private word counter of the in-memory manager variant
    ([src/unnamed/part_001]).

    Modelling choices:
    - JS strings are [string] (sequences of 8-bit code units, read as
      U+0000..U+00FF); JS whitespace ([\s], [trim]) restricted to that range
      is TAB, LF, VT, FF, CR, SPACE and NO-BREAK SPACE.
    - JS numbers used as layout coordinates are integers ([Z]).
    - The file store is three key-addressed maps (one JSON file per id);
      [JSON.parse (JSON.stringify x)] is modelled as the identity.
    - [new Date()] reads the clock of the state; [randomUUID()] draws the
      next name of a fresh-name supply.
    - An operation runs in a state and error monad; a thrown [Error] keeps
      the store as it was when the exception was raised (file writes are
      not rolled back). *)

From stdpp Require Import base gmap strings list fin_maps pretty.
From Stdlib Require Import ZArith Ascii String.

Local Open Scope Z_scope.

(* ------------------------------------------------------------------ *)
(** ** JS string primitives *)

Module JS.

Definition is_ws (c : ascii) : bool :=
  bool_decide (nat_of_ascii c ∈ [9; 10; 11; 12; 13; 32; 160]%nat).

Definition sapp (a b : string) : string := String.append a b.

(** [s.trimStart()] *)
Fixpoint ltrim (s : string) : string :=
  match s with
  | EmptyString => EmptyString
  | String c r => if is_ws c then ltrim r else s
  end.

(** [s.trimEnd()] *)
Fixpoint rtrim (s : string) : string :=
  match s with
  | EmptyString => EmptyString
  | String c r =>
      let r' := rtrim r in
      match r' with
      | EmptyString => if is_ws c then EmptyString else String c EmptyString
      | _ => String c r'
      end
  end.

(** [s.trim()] *)
Definition trim (s : string) : string := rtrim (ltrim s).

(** [s.split(/\s+/)]: the pieces between maximal runs of whitespace; a
    leading (trailing) run yields an empty first (last) piece, and the
    empty string yields [[""]]. [cur] is the piece being read, [inws]
    tells whether the previous character was whitespace. *)
Fixpoint split_ws_aux (s : string) (cur : string) (inws : bool) : list string :=
  match s with
  | EmptyString => [cur]
  | String c r =>
      if is_ws c then
        if inws then split_ws_aux r cur true
        else cur :: split_ws_aux r EmptyString true
      else split_ws_aux r (sapp cur (String c EmptyString)) false
  end.

Definition split_ws (s : string) : list string := split_ws_aux s EmptyString false.

(** [s.substring(start, end)]: both bounds clamped to [0, length], then
    swapped when [start > end]. *)
Definition clamp (n len : Z) : Z := Z.max 0 (Z.min n len).

Definition substring2 (s : string) (start end_ : Z) : string :=
  let len := Z.of_nat (String.length s) in
  let a := clamp start len in
  let b := clamp end_ len in
  String.substring (Z.to_nat (Z.min a b)) (Z.to_nat (Z.max a b - Z.min a b)) s.

(** [s.substring(start)] *)
Definition substring1 (s : string) (start : Z) : string :=
  substring2 s start (Z.of_nat (String.length s)).

(** [pieces[0]] of [s.split(sep)] when [sep] matches single characters
    (or runs of them) satisfying [p]: the prefix before the first match. *)
Fixpoint take_until (p : ascii -> bool) (s : string) : string :=
  match s with
  | EmptyString => EmptyString
  | String c r => if p c then EmptyString else String c (take_until p r)
  end.

(** [a.join(sep)] *)
Fixpoint join (sep : string) (l : list string) : string :=
  match l with
  | [] => EmptyString
  | [a] => a
  | a :: r => sapp a (sapp sep (join sep r))
  end.

(** Truthiness of a string: only [""] is falsy. *)
Definition truthy_str (s : string) : bool :=
  match s with EmptyString => false | _ => true end.

Definition nl : string := String "010"%char EmptyString.

(** The blank-line separator ["\n\n"]. *)
Definition blank_line : string := sapp nl nl.

(** [s.split(/[...]+/)] for a character class [p]: the pieces between
    maximal runs of characters satisfying [p]. *)
Fixpoint split_runs_aux (p : ascii -> bool) (s : string) (cur : string) (inrun : bool)
    : list string :=
  match s with
  | EmptyString => [cur]
  | String c r =>
      if p c then
        if inrun then split_runs_aux p r cur true
        else cur :: split_runs_aux p r EmptyString true
      else split_runs_aux p r (sapp cur (String c EmptyString)) false
  end.

Definition split_runs (p : ascii -> bool) (s : string) : list string :=
  split_runs_aux p s EmptyString false.

Definition is_nl (c : ascii) : bool := bool_decide (c = "010"%char).

(** Scanner state of [s.split(/\n\s*\n/)]: outside a candidate separator;
    inside a whitespace run that follows a newline, with no second newline
    yet; inside a separator already matched (the greedy [\s*] extends it
    to the last newline of the run). *)
Inductive BMode := BNormal | BPending | BMatched.

(** [cur] is the piece being read; [pend] the whitespace read since the
    newline that opened the run (or since the last newline of a matched
    separator). *)
Fixpoint split_blank_aux (s : string) (mode : BMode) (cur pend : string) : list string :=
  match s with
  | EmptyString =>
      match mode with
      | BNormal => [cur]
      | BPending => [sapp cur pend]
      | BMatched => [pend]
      end
  | String c r =>
      match mode with
      | BNormal =>
          if is_nl c then split_blank_aux r BPending cur (String c EmptyString)
          else split_blank_aux r BNormal (sapp cur (String c EmptyString)) EmptyString
      | BPending =>
          if is_nl c then cur :: split_blank_aux r BMatched EmptyString EmptyString
          else if is_ws c then split_blank_aux r BPending cur (sapp pend (String c EmptyString))
          else split_blank_aux r BNormal (sapp cur (sapp pend (String c EmptyString))) EmptyString
      | BMatched =>
          if is_nl c then split_blank_aux r BMatched EmptyString EmptyString
          else if is_ws c then split_blank_aux r BMatched EmptyString (sapp pend (String c EmptyString))
          else split_blank_aux r BNormal (sapp pend (String c EmptyString)) EmptyString
      end
  end.

(** [s.split(/\n\s*\n/)] *)
Definition split_blank (s : string) : list string :=
  split_blank_aux s BNormal EmptyString EmptyString.

(** [s.replace(/[...]/g, r)] for a character class [p]. *)
Fixpoint replace_chars (p : ascii -> bool) (r : ascii) (s : string) : string :=
  match s with
  | EmptyString => EmptyString
  | String c t => String (if p c then r else c) (replace_chars p r t)
  end.

(** [s.replace(/\s+/g, r)]: each maximal whitespace run becomes [r]. *)
Fixpoint replace_ws_runs (r : ascii) (s : string) (inws : bool) : string :=
  match s with
  | EmptyString => EmptyString
  | String c t =>
      if is_ws c then
        if inws then replace_ws_runs r t true else String r (replace_ws_runs r t true)
      else String c (replace_ws_runs r t false)
  end.

(** Lower-casing of one code unit in U+0000..U+00FF: A-Z and
    U+00C0..U+00DE except U+00D7 map 32 code points down the table. *)
Definition lower_char (c : ascii) : ascii :=
  let n := nat_of_ascii c in
  if (((65 <=? n) && (n <=? 90)) || ((192 <=? n) && (n <=? 222) && negb (n =? 215)))%nat
  then ascii_of_nat (n + 32)%nat else c.

(** [s.toLowerCase()] *)
Fixpoint to_lower (s : string) : string :=
  match s with
  | EmptyString => EmptyString
  | String c t => String (lower_char c) (to_lower t)
  end.

End JS.

Import JS.

(* ------------------------------------------------------------------ *)
(** ** [src/src/utils/CardUtils.ts] *)

(** [countWords(content)] *)
Definition countWords (content : string) : Z :=
  if negb (truthy_str content) || (String.length (trim content) =? 0)%nat then 0
  else Z.of_nat (List.length (split_ws (trim content))).

(** [extractTitle(content)] *)
Definition extractTitle (content : string) : string :=
  let firstLine := trim (take_until (fun c => bool_decide (c = "010"%char)) (trim content)) in
  if (0 <? String.length firstLine)%nat then
    if (String.length firstLine <=? 50)%nat then firstLine
    else
      let firstSentence :=
        trim (take_until (fun c => bool_decide (c ∈ ["."; "!"; "?"]%char)) firstLine) in
      if (String.length firstSentence <=? 50)%nat then firstSentence
      else sapp (substring2 firstSentence 0 47) "..."
  else "Untitled Card".


(** [detectParagraphs(text)] *)
Definition detectParagraphs (text : string) : list string :=
  filter (fun p => (0 < String.length p)%nat) (map trim (split_blank text)).

(** The characters replaced by [sanitizeFilename], by code point: less-than,
    greater-than, colon, double quote, slash, backslash, bar, question mark
    and asterisk. *)
Definition is_fname_reserved (c : ascii) : bool :=
  bool_decide (nat_of_ascii c ∈ [60; 62; 58; 34; 47; 92; 124; 63; 42]%nat).

(** [sanitizeFilename(filename)] *)
Definition sanitizeFilename (filename : string) : string :=
  to_lower (replace_ws_runs "_" (replace_chars is_fname_reserved "-" filename) false).

(** [truncateText(text, maxLength)] (the default [maxLength = 100] is the
    caller's argument here). *)
Definition truncateText (text : string) (maxLength : Z) : string :=
  if Z.of_nat (String.length text) <=? maxLength then text
  else sapp (substring2 text 0 (maxLength - 3)) "...".

(* ------------------------------------------------------------------ *)
(** ** The in-memory manager variant ([src/unnamed/part_001]) *)

Module InMemory.

(** [private countWords(text)]:
    [text.trim().split(/\s+/).filter((word) => word.length > 0).length] *)
Definition countWords (text : string) : Z :=
  Z.of_nat (List.length (filter (fun w => (0 < String.length w)%nat) (split_ws (trim text)))).

End InMemory.

(* ------------------------------------------------------------------ *)
(** ** [src/src/types/WritingCard.ts] *)

Module CardStatus.
Inductive t := draft | edited | reviewed | final.
End CardStatus.

Module ChangeType.
Inductive t := create | edit | merge | split.
End ChangeType.

Module VersionEntry.
Record t := {
  timestamp : Z;
  content : string;
  author : option string;
  changeType : ChangeType.t }.
End VersionEntry.

Module CardPosition.
Record t := {
  x : Z;
  y : Z;
  width : Z;
  height : Z;
  zIndex : option Z }.
End CardPosition.

Module CardMetadata.
Record t := {
  wordCount : Z;
  createdAt : Z;
  updatedAt : Z;
  chunkId : option string;
  color : option string;
  priority : option Z }.
End CardMetadata.

Module WritingCard.
Record t := {
  id : string;
  title : string;
  content : string;
  tags : list string;
  status : CardStatus.t;
  history : list VersionEntry.t;
  position : CardPosition.t;
  metadata : CardMetadata.t }.
End WritingCard.

Module LayoutType.
Inductive t := grid | freeform | linear.
End LayoutType.

Module ChunkLayout.
Record t := {
  type : LayoutType.t;
  columns : option Z;
  spacing : option Z;
  autoArrange : option bool }.
End ChunkLayout.

Module ContentChunk.
Record t := {
  id : string;
  name : string;
  cardIds : list string;
  purpose : string;
  layout : ChunkLayout.t }.
End ContentChunk.

(** [Partial<WritingCard>]: [None] is a key absent from the patch. *)
Module CardPatch.
Record t := {
  id : option string;
  title : option string;
  content : option string;
  tags : option (list string);
  status : option CardStatus.t;
  history : option (list VersionEntry.t);
  position : option CardPosition.t;
  metadata : option CardMetadata.t }.

Definition empty : t := Build_t None None None None None None None None.

(** [{ content: c }] *)
Definition with_content (c : string) : t :=
  Build_t None None (Some c) None None None None None.

(** [{ history: h }] *)
Definition with_history (h : list VersionEntry.t) : t :=
  Build_t None None None None None (Some h) None None.
End CardPatch.

(** [Partial<ContentChunk>] *)
Module ChunkPatch.
Record t := {
  id : option string;
  name : option string;
  cardIds : option (list string);
  purpose : option string;
  layout : option ChunkLayout.t }.

Definition empty : t := Build_t None None None None None.
End ChunkPatch.

(** One field of an object spread [{ ...old, ...patch }]. *)
Definition spread {A} (patch : option A) (old : A) : A :=
  match patch with Some v => v | None => old end.

(* ------------------------------------------------------------------ *)
(** ** Store, clock, fresh names and the operation monad *)

(** The persisted state: the [cards/] and [chunks/] directories of
    [.cline-writing/], one document per id; the clock read by [new Date()]
    and the fresh-name supply of [randomUUID()]. *)
Record Store := {
  cards : gmap string WritingCard.t;
  chunks : gmap string ContentChunk.t;
  clock : Z;
  uuid_next : nat }.

(** A thrown JS [Error] with its message. *)
Inductive Error := mkError (message : string).

Inductive Result (A : Type) :=
| Ok (a : A) (s : Store)
| Throw (e : Error) (s : Store).
Arguments Ok {A} a s.
Arguments Throw {A} e s.

Definition M (A : Type) : Type := Store -> Result A.

Global Instance M_ret : MRet M := fun A a s => Ok a s.
Global Instance M_bind : MBind M := fun A B f m s =>
  match m s with
  | Ok a s' => f a s'
  | Throw e s' => Throw e s'
  end.

Definition throw {A} (e : Error) : M A := fun s => Throw e s.

(** [new Date()] *)
Definition now : M Z := fun s => Ok (clock s) s.

Definition uuid_of (n : nat) : string := sapp "uuid-" (pretty (N.of_nat n)).

(** [generateCardId()] = [randomUUID()] *)
Definition generateCardId : M string := fun s =>
  Ok (uuid_of (uuid_next s))
     {| cards := cards s; chunks := chunks s; clock := clock s;
        uuid_next := S (uuid_next s) |}.

Definition set_cards (m : gmap string WritingCard.t) (s : Store) : Store :=
  {| cards := m; chunks := chunks s; clock := clock s; uuid_next := uuid_next s |}.

Definition set_chunks (m : gmap string ContentChunk.t) (s : Store) : Store :=
  {| cards := cards s; chunks := m; clock := clock s; uuid_next := uuid_next s |}.

(** Monadic map, the sequential reading of [Promise.all(xs.map(f))]. *)
Fixpoint mapM {A B} (f : A -> M B) (xs : list A) : M (list B) :=
  match xs with
  | [] => mret []
  | x :: r => b ← f x; bs ← mapM f r; mret (b :: bs)
  end.

(* ------------------------------------------------------------------ *)
(** ** [src/src/storage/CardStorage.ts] (card and chunk namespaces) *)

Module CardStorage.

Definition saveCard (card : WritingCard.t) : M unit := fun s =>
  Ok tt (set_cards (<[WritingCard.id card := card]> (cards s)) s).

Definition loadCard (id : string) : M (option WritingCard.t) := fun s =>
  Ok (cards s !! id) s.

Definition deleteCard (id : string) : M bool := fun s =>
  Ok (bool_decide (is_Some (cards s !! id))) (set_cards (delete id (cards s)) s).

Definition saveChunk (chunk : ContentChunk.t) : M unit := fun s =>
  Ok tt (set_chunks (<[ContentChunk.id chunk := chunk]> (chunks s)) s).

Definition loadChunk (id : string) : M (option ContentChunk.t) := fun s =>
  Ok (chunks s !! id) s.

Definition deleteChunk (id : string) : M bool := fun s =>
  Ok (bool_decide (is_Some (chunks s !! id))) (set_chunks (delete id (chunks s)) s).

End CardStorage.

(* ------------------------------------------------------------------ *)
(** ** [src/src/services/CardManager.ts] *)

Module CardManager.
Import CardStorage.

(** [title || fallback] for an optional string argument. *)
Definition or_str (o : option string) (fallback : string) : string :=
  match o with Some t => if truthy_str t then t else fallback | None => fallback end.

Definition default_position : CardPosition.t :=
  {| CardPosition.x := 0; CardPosition.y := 0; CardPosition.width := 250;
     CardPosition.height := 200; CardPosition.zIndex := None |}.

Definition card_not_found (id : string) : Error :=
  mkError (sapp "Card with id " (sapp id " not found")).

Definition chunk_not_found (id : string) : Error :=
  mkError (sapp "Chunk with id " (sapp id " not found")).

(** [card.history.push(entry)] on the card object. *)
Definition push_history (c : WritingCard.t) (e : VersionEntry.t) : WritingCard.t :=
  {| WritingCard.id := WritingCard.id c; WritingCard.title := WritingCard.title c;
     WritingCard.content := WritingCard.content c; WritingCard.tags := WritingCard.tags c;
     WritingCard.status := WritingCard.status c;
     WritingCard.history := WritingCard.history c ++ [e];
     WritingCard.position := WritingCard.position c;
     WritingCard.metadata := WritingCard.metadata c |}.

Definition entry (t : Z) (content : string) (ct : ChangeType.t) : VersionEntry.t :=
  {| VersionEntry.timestamp := t; VersionEntry.content := content;
     VersionEntry.author := None; VersionEntry.changeType := ct |}.

(** [createCard(content, title?, tags = [], position?)] *)
Definition createCard (content : string) (title : option string) (tags : list string)
    (position : option CardPosition.t) : M WritingCard.t :=
  id ← generateCardId;
  let extractedTitle := or_str title (extractTitle content) in
  let wordCount := countWords content in
  t_hist ← now;
  t_created ← now;
  t_updated ← now;
  let card :=
    {| WritingCard.id := id;
       WritingCard.title := extractedTitle;
       WritingCard.content := content;
       WritingCard.tags := tags;
       WritingCard.status := CardStatus.draft;
       WritingCard.history := [entry t_hist content ChangeType.create];
       WritingCard.position := spread position default_position;
       WritingCard.metadata :=
         {| CardMetadata.wordCount := wordCount;
            CardMetadata.createdAt := t_created;
            CardMetadata.updatedAt := t_updated;
            CardMetadata.chunkId := None;
            CardMetadata.color := None;
            CardMetadata.priority := None |} |} in
  saveCard card;;
  mret card.

(** [{ ...card.metadata, ...updates.metadata, updatedAt, wordCount }];
    the optional keys of the patch's metadata override only when present. *)
Definition merge_metadata (old : CardMetadata.t) (patch : option CardMetadata.t)
    (updatedAt wordCount : Z) : CardMetadata.t :=
  match patch with
  | None =>
      {| CardMetadata.wordCount := wordCount;
         CardMetadata.createdAt := CardMetadata.createdAt old;
         CardMetadata.updatedAt := updatedAt;
         CardMetadata.chunkId := CardMetadata.chunkId old;
         CardMetadata.color := CardMetadata.color old;
         CardMetadata.priority := CardMetadata.priority old |}
  | Some p =>
      {| CardMetadata.wordCount := wordCount;
         CardMetadata.createdAt := CardMetadata.createdAt p;
         CardMetadata.updatedAt := updatedAt;
         CardMetadata.chunkId := if CardMetadata.chunkId p then CardMetadata.chunkId p
                                 else CardMetadata.chunkId old;
         CardMetadata.color := if CardMetadata.color p then CardMetadata.color p
                               else CardMetadata.color old;
         CardMetadata.priority := if CardMetadata.priority p then CardMetadata.priority p
                                  else CardMetadata.priority old |}
  end.

(** [{ ...card, ...updates, metadata: { ...card.metadata, ...updates.metadata,
    updatedAt: now, wordCount: ... } }] *)
Definition merge_card (card : WritingCard.t) (updates : CardPatch.t) (t : Z) : WritingCard.t :=
  let wordCount :=
    match CardPatch.content updates with
    | Some c => if truthy_str c then countWords c else CardMetadata.wordCount (WritingCard.metadata card)
    | None => CardMetadata.wordCount (WritingCard.metadata card)
    end in
  {| WritingCard.id := spread (CardPatch.id updates) (WritingCard.id card);
     WritingCard.title := spread (CardPatch.title updates) (WritingCard.title card);
     WritingCard.content := spread (CardPatch.content updates) (WritingCard.content card);
     WritingCard.tags := spread (CardPatch.tags updates) (WritingCard.tags card);
     WritingCard.status := spread (CardPatch.status updates) (WritingCard.status card);
     WritingCard.history := spread (CardPatch.history updates) (WritingCard.history card);
     WritingCard.position := spread (CardPatch.position updates) (WritingCard.position card);
     WritingCard.metadata :=
       merge_metadata (WritingCard.metadata card) (CardPatch.metadata updates) t wordCount |}.

(** [updatedCard.history = h] *)
Definition set_history (c : WritingCard.t) (h : list VersionEntry.t) : WritingCard.t :=
  {| WritingCard.id := WritingCard.id c; WritingCard.title := WritingCard.title c;
     WritingCard.content := WritingCard.content c; WritingCard.tags := WritingCard.tags c;
     WritingCard.status := WritingCard.status c; WritingCard.history := h;
     WritingCard.position := WritingCard.position c;
     WritingCard.metadata := WritingCard.metadata c |}.

(** [updates.content && updates.content !== card.content] *)
Definition content_changed (card : WritingCard.t) (c : string) : bool :=
  truthy_str c && negb (String.eqb c (WritingCard.content card)).

(** [updateCard(id, updates)] *)
Definition updateCard (id : string) (updates : CardPatch.t) : M WritingCard.t :=
  card_opt ← loadCard id;
  match card_opt with
  | None => throw (card_not_found id)
  | Some card =>
      t ← now;
      let updatedCard := merge_card card updates t in
      (* Add version history entry if content changed *)
      updatedCard ←
        match CardPatch.content updates with
        | Some c =>
            if content_changed card c then
              t' ← now;
              mret (set_history updatedCard (WritingCard.history card ++ [entry t' c ChangeType.edit]))
            else mret updatedCard
        | None => mret updatedCard
        end;
      saveCard updatedCard;;
      mret updatedCard
  end.

(** The card [updateCard] returns for a stored [card] when [new Date()]
    reads [t]. *)
Definition updated_card (card : WritingCard.t) (updates : CardPatch.t) (t : Z) : WritingCard.t :=
  match CardPatch.content updates with
  | Some c =>
      if content_changed card c
      then set_history (merge_card card updates t) (WritingCard.history card ++ [entry t c ChangeType.edit])
      else merge_card card updates t
  | None => merge_card card updates t
  end.

(** The card [createCard] builds when [randomUUID()] yields [id] and
    [new Date()] reads [t]. *)
Definition created_card (id : string) (content : string) (title : option string)
    (tags : list string) (position : option CardPosition.t) (t : Z) : WritingCard.t :=
  {| WritingCard.id := id;
     WritingCard.title := or_str title (extractTitle content);
     WritingCard.content := content;
     WritingCard.tags := tags;
     WritingCard.status := CardStatus.draft;
     WritingCard.history := [entry t content ChangeType.create];
     WritingCard.position := spread position default_position;
     WritingCard.metadata :=
       {| CardMetadata.wordCount := countWords content;
          CardMetadata.createdAt := t; CardMetadata.updatedAt := t;
          CardMetadata.chunkId := None; CardMetadata.color := None;
          CardMetadata.priority := None |} |}.

(** [deleteCard(id)] *)
Definition deleteCard (id : string) : M bool := CardStorage.deleteCard id.

(** [getCard(id)] *)
Definition getCard (id : string) : M (option WritingCard.t) := loadCard id.

(** [splitCard(id, splitPoint)] *)
Definition splitCard (id : string) (splitPoint : Z) : M (WritingCard.t * WritingCard.t) :=
  card_opt ← loadCard id;
  match card_opt with
  | None => throw (card_not_found id)
  | Some card =>
      let content1 := trim (substring2 (WritingCard.content card) 0 splitPoint) in
      let content2 := trim (substring1 (WritingCard.content card) splitPoint) in
      updatedCard1 ← updateCard id
        {| CardPatch.id := None; CardPatch.title := Some (extractTitle content1);
           CardPatch.content := Some content1; CardPatch.tags := None;
           CardPatch.status := None; CardPatch.history := None;
           CardPatch.position := None; CardPatch.metadata := None |};
      let pos := WritingCard.position card in
      newCard ← createCard content2 (Some (extractTitle content2)) (WritingCard.tags card)
        (Some {| CardPosition.x := CardPosition.x pos + CardPosition.width pos + 20;
                 CardPosition.y := CardPosition.y pos;
                 CardPosition.width := CardPosition.width pos;
                 CardPosition.height := CardPosition.height pos;
                 CardPosition.zIndex := None |});
      t1 ← now;
      let updatedCard1 := push_history updatedCard1 (entry t1 content1 ChangeType.split) in
      t2 ← now;
      let newCard := push_history newCard (entry t2 content2 ChangeType.split) in
      saveCard updatedCard1;;
      saveCard newCard;;
      mret (updatedCard1, newCard)
  end.

(** [[...new Set(xs)]]: first occurrences, in order. *)
Fixpoint set_dedup (seen : list string) (xs : list string) : list string :=
  match xs with
  | [] => []
  | x :: r => if bool_decide (x ∈ seen) then set_dedup seen r
              else x :: set_dedup (x :: seen) r
  end.

(** [mergeCards(id1, id2)] *)
Definition mergeCards (id1 id2 : string) : M WritingCard.t :=
  card1_opt ← loadCard id1;
  card2_opt ← loadCard id2;
  match card1_opt, card2_opt with
  | Some card1, Some card2 =>
      let mergedContent :=
        sapp (WritingCard.content card1) (sapp blank_line (WritingCard.content card2)) in
      let mergedTags := set_dedup [] (WritingCard.tags card1 ++ WritingCard.tags card2) in
      mergedCard ← updateCard id1
        {| CardPatch.id := None; CardPatch.title := Some (extractTitle mergedContent);
           CardPatch.content := Some mergedContent; CardPatch.tags := Some mergedTags;
           CardPatch.status := None; CardPatch.history := None;
           CardPatch.position := None; CardPatch.metadata := None |};
      t ← now;
      let mergedCard := push_history mergedCard (entry t mergedContent ChangeType.merge) in
      saveCard mergedCard;;
      CardStorage.deleteCard id2;;
      mret mergedCard
  | _, _ => throw (mkError "One or both cards not found")
  end.

(** [updateCardPosition(id, position)] *)
Definition updateCardPosition (id : string) (position : CardPosition.t) : M WritingCard.t :=
  updateCard id {| CardPatch.id := None; CardPatch.title := None; CardPatch.content := None;
                   CardPatch.tags := None; CardPatch.status := None; CardPatch.history := None;
                   CardPatch.position := Some position; CardPatch.metadata := None |}.

(** [n || d] for an optional integer: [undefined] and [0] are falsy. *)
Definition or_num (o : option Z) (d : Z) : Z :=
  match o with Some n => if Z.eqb n 0 then d else n | None => d end.

Definition cardWidth : Z := 250.
Definition cardHeight : Z := 200.

(** Position of the card at index [i] in the grid branch. *)
Definition grid_position (columns spacing i : Z) : CardPosition.t :=
  {| CardPosition.x := Z.rem i columns * (cardWidth + spacing);
     CardPosition.y := Z.div i columns * (cardHeight + spacing);
     CardPosition.width := cardWidth; CardPosition.height := cardHeight;
     CardPosition.zIndex := None |}.

(** Position of the card at index [i] in the linear branch. *)
Definition linear_position (spacing i : Z) : CardPosition.t :=
  {| CardPosition.x := i * (cardWidth + spacing); CardPosition.y := 0;
     CardPosition.width := cardWidth; CardPosition.height := cardHeight;
     CardPosition.zIndex := None |}.

(** [for (let i = ...) validCards[i] = await this.updateCardPosition(validCards[i].id, pos(i))] *)
Fixpoint arrange_loop (pos : Z -> CardPosition.t) (i : Z) (cs : list WritingCard.t)
    : M (list WritingCard.t) :=
  match cs with
  | [] => mret []
  | c :: r =>
      c' ← updateCardPosition (WritingCard.id c) (pos i);
      r' ← arrange_loop pos (i + 1) r;
      mret (c' :: r')
  end.

(** [autoArrangeCards(cardIds, layout)] *)
Definition autoArrangeCards (cardIds : list string) (layout : ChunkLayout.t)
    : M (list WritingCard.t) :=
  cards ← mapM loadCard cardIds;
  let validCards := omap (fun o => o) cards in
  match ChunkLayout.type layout with
  | LayoutType.grid =>
      let columns := or_num (ChunkLayout.columns layout) 3 in
      let spacing := or_num (ChunkLayout.spacing layout) 20 in
      arrange_loop (grid_position columns spacing) 0 validCards
  | LayoutType.linear =>
      let spacing := or_num (ChunkLayout.spacing layout) 20 in
      arrange_loop (linear_position spacing) 0 validCards
  | LayoutType.freeform => mret validCards
  end.

(** The default [layout] argument of [createChunk]. *)
Definition default_layout : ChunkLayout.t :=
  {| ChunkLayout.type := LayoutType.grid; ChunkLayout.columns := Some 3;
     ChunkLayout.spacing := Some 20; ChunkLayout.autoArrange := Some true |}.

(** [createChunk(name, cardIds = [], purpose = "general", layout = default_layout)] *)
Definition createChunk (name : string) (cardIds : list string) (purpose : string)
    (layout : ChunkLayout.t) : M ContentChunk.t :=
  id ← generateCardId;
  let chunk :=
    {| ContentChunk.id := id; ContentChunk.name := name; ContentChunk.cardIds := cardIds;
       ContentChunk.purpose := purpose; ContentChunk.layout := layout |} in
  saveChunk chunk;;
  (if bool_decide (ChunkLayout.autoArrange layout = Some true) && (0 <? List.length cardIds)%nat
   then autoArrangeCards cardIds layout;; mret tt
   else mret tt);;
  mret chunk.

(** [{ ...chunk, ...updates }] *)
Definition merge_chunk (chunk : ContentChunk.t) (updates : ChunkPatch.t) : ContentChunk.t :=
  {| ContentChunk.id := spread (ChunkPatch.id updates) (ContentChunk.id chunk);
     ContentChunk.name := spread (ChunkPatch.name updates) (ContentChunk.name chunk);
     ContentChunk.cardIds := spread (ChunkPatch.cardIds updates) (ContentChunk.cardIds chunk);
     ContentChunk.purpose := spread (ChunkPatch.purpose updates) (ContentChunk.purpose chunk);
     ContentChunk.layout := spread (ChunkPatch.layout updates) (ContentChunk.layout chunk) |}.

(** [updateChunk(id, updates)] *)
Definition updateChunk (id : string) (updates : ChunkPatch.t) : M ContentChunk.t :=
  chunk_opt ← loadChunk id;
  match chunk_opt with
  | None => throw (chunk_not_found id)
  | Some chunk =>
      let updatedChunk := merge_chunk chunk updates in
      saveChunk updatedChunk;;
      (* Auto-arrange if layout changed and auto-arrange is enabled:
         if (updates.layout?.autoArrange && updatedChunk.cardIds.length > 0) *)
      (if bool_decide (option_map ChunkLayout.autoArrange (ChunkPatch.layout updates) = Some (Some true))
          && (0 <? List.length (ContentChunk.cardIds updatedChunk))%nat
       then autoArrangeCards (ContentChunk.cardIds updatedChunk) (ContentChunk.layout updatedChunk);;
            mret tt
       else mret tt);;
      mret updatedChunk
  end.

(** [exportChunkAsText(chunkId)] *)
Definition exportChunkAsText (chunkId : string) : M string :=
  chunk_opt ← loadChunk chunkId;
  match chunk_opt with
  | None => throw (chunk_not_found chunkId)
  | Some chunk =>
      cards ← mapM loadCard (ContentChunk.cardIds chunk);
      let validCards := omap (fun o => o) cards in
      mret (join blank_line (map WritingCard.content validCards))
  end.

(** The [splitBy] argument of [importTextAsCards]. *)
Inductive SplitBy := paragraph | sentence | custom.

Definition is_sentence_end (c : ascii) : bool := bool_decide (c ∈ ["."; "!"; "?"]%char).

(** The [segments] computed by [importTextAsCards]. *)
Definition import_segments (text : string) (splitBy : SplitBy) : list string :=
  match splitBy with
  | paragraph => filter (fun s => (0 < String.length (trim s))%nat) (split_blank text)
  | sentence => filter (fun s => (0 < String.length (trim s))%nat) (split_runs is_sentence_end text)
  | custom => [text]
  end.

(** Position given to the [i]-th imported card. *)
Definition import_position (i : Z) : CardPosition.t :=
  {| CardPosition.x := Z.rem i 3 * 270; CardPosition.y := Z.div i 3 * 220;
     CardPosition.width := 250; CardPosition.height := 200; CardPosition.zIndex := None |}.

(** The [for] loop of [importTextAsCards] from index [i]. *)
Fixpoint import_loop (i : Z) (segments : list string) : M (list WritingCard.t) :=
  match segments with
  | [] => mret []
  | seg :: r =>
      let content := trim seg in
      card ← createCard content (Some (extractTitle content)) [] (Some (import_position i));
      cards ← import_loop (i + 1) r;
      mret (card :: cards)
  end.

(** [importTextAsCards(text, chunkName, splitBy)] *)
Definition importTextAsCards (text chunkName : string) (splitBy : SplitBy) : M ContentChunk.t :=
  cards ← import_loop 0 (import_segments text splitBy);
  createChunk chunkName (map WritingCard.id cards) "imported-text" default_layout.

(** [getChunk(id)] *)
Definition getChunk (id : string) : M (option ContentChunk.t) := loadChunk id.

(** [deleteChunk(id)] *)
Definition deleteChunk (id : string) : M bool := CardStorage.deleteChunk id.

End CardManager.

(** Every card document is stored under its own id ([saveCard] writes
    [<card.id>.json]). *)
Definition cards_wf (s : Store) : Prop :=
  forall k c, cards s !! k = Some c -> WritingCard.id c = k.

(** The history invariant of a card: the history is non-empty and its
    last entry records the card's current content. *)
Definition card_history_ok (c : WritingCard.t) : Prop :=
  exists e, last (WritingCard.history c) = Some e /\ VersionEntry.content e = WritingCard.content c.

(* ================================================================== *)
(** * Properties *)

(* ------------------------------------------------------------------ *)
(** ** Whitespace trimming and splitting *)

Section Trim.

Lemma rtrim_idem s : rtrim (rtrim s) = rtrim s.
Proof.
  induction s as [|c r IH]; [done|]. simpl.
  destruct (rtrim r) as [|c' r'] eqn:E.
  - destruct (is_ws c) eqn:Hc; [done|]. simpl. by rewrite Hc.
  - remember (String c' r') as u eqn:Hu. simpl. rewrite IH. by subst u.
Qed.

Lemma ltrim_head s :
  ltrim s = EmptyString \/ exists c r, ltrim s = String c r /\ is_ws c = false.
Proof.
  induction s as [|c r IH]; [by left|]. simpl.
  destruct (is_ws c) eqn:Hc; [done|]. right. eauto.
Qed.

Lemma rtrim_head c r :
  is_ws c = false -> exists r', rtrim (String c r) = String c r'.
Proof.
  intros Hc. simpl. destruct (rtrim r); [rewrite Hc|]; eauto.
Qed.

Lemma trim_shape s :
  trim s = EmptyString \/
  exists c r, trim s = String c r /\ is_ws c = false /\ rtrim r = r.
Proof.
  unfold trim. destruct (ltrim_head s) as [E | (c & r & E & Hc)].
  - left. by rewrite E.
  - right. rewrite E. destruct (rtrim_head c r Hc) as [r' Hr].
    exists c, r'. split; [done|]. split; [done|].
    pose proof (rtrim_idem (String c r)) as Hi. rewrite Hr in Hi. simpl in Hi.
    destruct (rtrim r') as [|d u] eqn:E'.
    + destruct (is_ws c); [discriminate|]. injection Hi as <-. done.
    + by injection Hi as <-.
Qed.

Lemma rtrim_tail c r :
  rtrim (String c r) = String c r -> rtrim r = r /\ (r = EmptyString -> is_ws c = false).
Proof.
  simpl. destruct (rtrim r) as [|d u] eqn:E.
  - destruct (is_ws c) eqn:Hc; [discriminate|]. intros H. injection H as <-. done.
  - intros H. injection H as <-. split; [done|]. discriminate.
Qed.

(** Every piece of [split_ws_aux] is non-empty when the rest of the input
    has no trailing whitespace and the reader is either inside a word
    ([cur] non-empty) or just past a whitespace run (that is not at the
    end of the input). *)
Lemma split_ws_aux_nonempty s cur inws :
  rtrim s = s ->
  (inws = true /\ cur = EmptyString /\ s <> EmptyString) \/ (inws = false /\ cur <> EmptyString) ->
  Forall (fun w => w <> EmptyString) (split_ws_aux s cur inws).
Proof.
  revert cur inws. induction s as [|c r IH]; intros cur inws Hr Hi.
  - destruct Hi as [(_ & _ & ?) | (-> & ?)]; [done|]. simpl. by repeat constructor.
  - destruct (rtrim_tail c r Hr) as [Hr' Hend]. simpl.
    destruct (is_ws c) eqn:Hc.
    + assert (r <> EmptyString) by (intros E; specialize (Hend E); congruence).
      destruct Hi as [(-> & -> & _) | (-> & Hcur)].
      * apply IH; auto.
      * constructor; [done|]. apply IH; auto.
    + apply IH; [done|]. right. split; [done|].
      destruct cur; discriminate.
Qed.

Lemma split_trim_nonempty s :
  trim s <> EmptyString -> Forall (fun w => w <> EmptyString) (split_ws (trim s)).
Proof.
  intros Hne. destruct (trim_shape s) as [E | (c & r & E & Hc & Hr)]; [done|].
  rewrite E. unfold split_ws. simpl. rewrite Hc.
  apply split_ws_aux_nonempty; [done|]. right. split; [done|]. discriminate.
Qed.

End Trim.

Lemma filter_nonempty_id (l : list string) :
  Forall (fun w => w <> EmptyString) l ->
  filter (fun w => (0 < String.length w)%nat) l = l.
Proof.
  induction 1 as [|w l Hw _ IH]; [done|].
  rewrite filter_cons_True; [by rewrite IH|].
  destruct w; [done|]. simpl. lia.
Qed.

(** C10: the file-backed manager's [countWords] (from [CardUtils.ts]) and
    the private [countWords] of the in-memory manager variant return the
    same number on every input string. *)
Theorem countWords_variants_agree (text : string) :
  countWords text = InMemory.countWords text.
Proof.
  unfold countWords, InMemory.countWords.
  destruct (decide (trim text = EmptyString)) as [E | E].
  - rewrite E. simpl. by destruct (truthy_str text).
  - rewrite filter_nonempty_id by (by apply split_trim_nonempty).
    assert (truthy_str text = true).
    { destruct text; [done|]. reflexivity. }
    assert ((String.length (trim text) =? 0)%nat = false).
    { destruct (trim text); [done|]. reflexivity. }
    rewrite H, H0. reflexivity.
Qed.

(* ------------------------------------------------------------------ *)
(** ** Running the operations *)

Ltac step :=
  unfold mbind, M_bind, mret, M_ret;
  cbn [CardStorage.loadCard CardStorage.saveCard
       CardStorage.deleteCard CardStorage.loadChunk CardStorage.saveChunk
       CardStorage.deleteChunk now generateCardId throw
       cards chunks clock uuid_next set_cards set_chunks].

Section Run.
Import CardManager.

Lemma updateCard_ok s id upd card :
  cards s !! id = Some card ->
  updateCard id upd s =
    Ok (updated_card card upd (clock s))
       (set_cards (<[WritingCard.id (updated_card card upd (clock s)) :=
                     updated_card card upd (clock s)]> (cards s)) s).
Proof.
  intros H. unfold updateCard, updated_card. step. rewrite H. step.
  destruct (CardPatch.content upd) as [c|]; [destruct (content_changed card c)|]; step; reflexivity.
Qed.

Lemma updateCard_missing s id upd :
  cards s !! id = None -> updateCard id upd s = Throw (card_not_found id) s.
Proof. intros H. unfold updateCard. step. by rewrite H. Qed.

Lemma createCard_ok s content title tags position :
  createCard content title tags position s =
    let c := created_card (uuid_of (uuid_next s)) content title tags position (clock s) in
    Ok c (set_cards (<[WritingCard.id c := c]> (cards s))
            {| cards := cards s; chunks := chunks s; clock := clock s;
               uuid_next := S (uuid_next s) |}).
Proof. reflexivity. Qed.

End Run.

Section Merge.
Import CardManager.

Lemma updated_card_content card upd t c :
  CardPatch.content upd = Some c -> WritingCard.content (updated_card card upd t) = c.
Proof.
  intros H. unfold updated_card, merge_card, set_history. rewrite H.
  by destruct (content_changed card c).
Qed.

Lemma updated_card_id card upd t :
  WritingCard.id (updated_card card upd t) = spread (CardPatch.id upd) (WritingCard.id card).
Proof.
  unfold updated_card, merge_card, set_history.
  by destruct (CardPatch.content upd) as [c|]; [destruct (content_changed card c)|].
Qed.

Lemma updated_card_tags card upd t :
  WritingCard.tags (updated_card card upd t) = spread (CardPatch.tags upd) (WritingCard.tags card).
Proof.
  unfold updated_card, merge_card, set_history.
  by destruct (CardPatch.content upd) as [c|]; [destruct (content_changed card c)|].
Qed.

Lemma set_dedup_elem seen l x :
  x ∈ set_dedup seen l <-> x ∈ l /\ x ∉ seen.
Proof.
  revert seen. induction l as [|y l IH]; intros seen; simpl.
  - set_solver.
  - case_bool_decide as Hy.
    + rewrite IH. split; [set_solver|]. intros [Hin Hn].
      apply elem_of_cons in Hin as [->|Hin]; [contradiction|]. auto.
    + rewrite elem_of_cons, IH, !elem_of_cons. split.
      * intros [->|[Hin Hn]]; [split; [by left|done]|].
        split; [by right|]. intros Hs. apply Hn. by right.
      * intros [[->|Hin] Hn]; [by left|].
        destruct (decide (x = y)) as [->|Hxy]; [by left|].
        right. split; [done|]. intros [->|Hs]; [done|]. exact (Hn Hs).
Qed.

Lemma set_dedup_NoDup seen l : NoDup (set_dedup seen l).
Proof.
  revert seen. induction l as [|y l IH]; intros seen; simpl; [constructor|].
  case_bool_decide; [done|]. constructor; [|done].
  rewrite set_dedup_elem. set_solver.
Qed.

End Merge.

(** C9: merging a card with itself returns a card whose content is the
    original content twice around a blank line, but the retirement
    [deleteCard(id2)] removes that very card: afterwards loading the id
    yields nothing. *)
Theorem mergeCards_same_id_deletes (s : Store) (id : string) (c : WritingCard.t) :
  cards s !! id = Some c ->
  exists m s',
    CardManager.mergeCards id id s = Ok m s' /\
    WritingCard.content m = sapp (WritingCard.content c) (sapp blank_line (WritingCard.content c)) /\
    cards s' !! id = None.
Proof.
  intros H. unfold CardManager.mergeCards. step. rewrite H.
  rewrite (updateCard_ok _ _ _ _ H). step.
  eexists _, _. split; [reflexivity|]. split.
  - cbn [CardManager.push_history WritingCard.content]. by erewrite updated_card_content.
  - apply lookup_delete_eq.
Qed.

Lemma mergeCards_same_id_deletes_witness :
  let c := CardManager.created_card "k"%string "a b"%string None [] None 0 in
  let s := {| cards := {[ "k"%string := c ]}; chunks := ∅; clock := 1; uuid_next := 0 |} in
  cards s !! "k"%string = Some c /\
  exists m s',
    CardManager.mergeCards "k"%string "k"%string s = Ok m s' /\
    WritingCard.content m = sapp (WritingCard.content c) (sapp blank_line (WritingCard.content c)) /\
    cards s' !! "k"%string = None.
Proof.
  intros c s. split; [reflexivity|].
  apply mergeCards_same_id_deletes. reflexivity.
Defined.

(** C8: merging two distinct stored cards keeps the first card's id,
    joins the contents with one blank line, unions the tags without
    duplicates, persists the merged card under the first id and deletes
    the second card's document. *)
Theorem mergeCards_distinct (s : Store) (id1 id2 : string) (c1 c2 : WritingCard.t) :
  cards_wf s -> id1 <> id2 ->
  cards s !! id1 = Some c1 -> cards s !! id2 = Some c2 ->
  exists m s',
    CardManager.mergeCards id1 id2 s = Ok m s' /\
    WritingCard.id m = id1 /\
    WritingCard.content m = sapp (WritingCard.content c1) (sapp blank_line (WritingCard.content c2)) /\
    NoDup (WritingCard.tags m) /\
    (forall t, t ∈ WritingCard.tags m <-> t ∈ WritingCard.tags c1 \/ t ∈ WritingCard.tags c2) /\
    cards s' !! id2 = None /\
    cards s' !! id1 = Some m.
Proof.
  intros Hwf Hne H1 H2. unfold CardManager.mergeCards. step. rewrite H1, H2.
  rewrite (updateCard_ok _ _ _ _ H1). step.
  eexists _, _. split; [reflexivity|].
  assert (Hid : WritingCard.id (CardManager.updated_card c1
      {| CardPatch.id := None;
         CardPatch.title := Some (extractTitle (sapp (WritingCard.content c1)
                              (sapp blank_line (WritingCard.content c2))));
         CardPatch.content := Some (sapp (WritingCard.content c1)
                              (sapp blank_line (WritingCard.content c2)));
         CardPatch.tags := Some (CardManager.set_dedup [] (WritingCard.tags c1 ++ WritingCard.tags c2));
         CardPatch.status := None; CardPatch.history := None;
         CardPatch.position := None; CardPatch.metadata := None |} (clock s)) = id1).
  { rewrite updated_card_id. cbn. by apply Hwf. }
  cbn [CardManager.push_history WritingCard.id WritingCard.content WritingCard.tags].
  rewrite Hid. split; [done|]. split; [by erewrite updated_card_content|].
  rewrite updated_card_tags. cbn [spread CardPatch.tags].
  split; [apply set_dedup_NoDup|]. split.
  { intros t. rewrite set_dedup_elem, elem_of_app. set_solver. }
  cbn [cards set_cards]. split.
  - apply lookup_delete_eq.
  - rewrite lookup_delete_ne by done. apply lookup_insert_eq.
Qed.

Lemma mergeCards_distinct_witness :
  let c1 := CardManager.created_card "a"%string "one"%string None ["x"%string; "y"%string] None 0 in
  let c2 := CardManager.created_card "b"%string "two"%string None ["y"%string; "z"%string] None 0 in
  let s := {| cards := <[ "a"%string := c1 ]> {[ "b"%string := c2 ]}; chunks := ∅; clock := 1; uuid_next := 0 |} in
  cards_wf s /\ "a"%string <> "b"%string /\ cards s !! "a"%string = Some c1 /\ cards s !! "b"%string = Some c2 /\
  exists m s',
    CardManager.mergeCards "a"%string "b"%string s = Ok m s' /\
    WritingCard.id m = "a"%string /\
    WritingCard.content m = sapp (WritingCard.content c1) (sapp blank_line (WritingCard.content c2)) /\
    NoDup (WritingCard.tags m) /\
    (forall t, t ∈ WritingCard.tags m <-> t ∈ WritingCard.tags c1 \/ t ∈ WritingCard.tags c2) /\
    cards s' !! "b"%string = None /\
    cards s' !! "a"%string = Some m.
Proof.
  intros c1 c2 s.
  assert (Hwf : cards_wf s).
  { intros k c Hk. cbn in Hk.
    destruct (decide (k = "a"%string)) as [->|Ha].
    - rewrite lookup_insert_eq in Hk. by injection Hk as <-.
    - rewrite lookup_insert_ne in Hk by congruence.
      destruct (decide (k = "b"%string)) as [->|Hb].
      + rewrite lookup_singleton_eq in Hk. by injection Hk as <-.
      + rewrite lookup_singleton_ne in Hk by congruence. discriminate. }
  assert (Hne : "a"%string <> "b"%string) by discriminate.
  assert (H1 : cards s !! "a"%string = Some c1) by reflexivity.
  assert (H2 : cards s !! "b"%string = Some c2) by reflexivity.
  split; [exact Hwf|]. split; [exact Hne|]. split; [exact H1|]. split; [exact H2|].
  exact (mergeCards_distinct s "a"%string "b"%string c1 c2 Hwf Hne H1 H2).
Defined.

(** C4: [updateCard(id, {})] appends no history entry and changes no
    field except [metadata.updatedAt], which is set to the current time;
    the refreshed card is persisted under [id]. *)
Theorem updateCard_empty_patch (s : Store) (id : string) (c : WritingCard.t) :
  cards_wf s -> cards s !! id = Some c ->
  let c' :=
    {| WritingCard.id := WritingCard.id c; WritingCard.title := WritingCard.title c;
       WritingCard.content := WritingCard.content c; WritingCard.tags := WritingCard.tags c;
       WritingCard.status := WritingCard.status c; WritingCard.history := WritingCard.history c;
       WritingCard.position := WritingCard.position c;
       WritingCard.metadata :=
         {| CardMetadata.wordCount := CardMetadata.wordCount (WritingCard.metadata c);
            CardMetadata.createdAt := CardMetadata.createdAt (WritingCard.metadata c);
            CardMetadata.updatedAt := clock s;
            CardMetadata.chunkId := CardMetadata.chunkId (WritingCard.metadata c);
            CardMetadata.color := CardMetadata.color (WritingCard.metadata c);
            CardMetadata.priority := CardMetadata.priority (WritingCard.metadata c) |} |} in
  CardManager.updateCard id CardPatch.empty s = Ok c' (set_cards (<[id := c']> (cards s)) s).
Proof.
  intros Hwf H c'. rewrite (updateCard_ok _ _ _ _ H).
  assert (Hid : WritingCard.id c = id) by (by apply Hwf).
  unfold c'. rewrite <- Hid at 1. reflexivity.
Qed.

Lemma updateCard_empty_patch_witness :
  let c := CardManager.created_card "k"%string "a b"%string None ["t"%string] None 0 in
  let s := {| cards := {[ "k"%string := c ]}; chunks := ∅; clock := 7; uuid_next := 0 |} in
  cards_wf s /\ cards s !! "k"%string = Some c /\
  let c' :=
    {| WritingCard.id := WritingCard.id c; WritingCard.title := WritingCard.title c;
       WritingCard.content := WritingCard.content c; WritingCard.tags := WritingCard.tags c;
       WritingCard.status := WritingCard.status c; WritingCard.history := WritingCard.history c;
       WritingCard.position := WritingCard.position c;
       WritingCard.metadata :=
         {| CardMetadata.wordCount := CardMetadata.wordCount (WritingCard.metadata c);
            CardMetadata.createdAt := CardMetadata.createdAt (WritingCard.metadata c);
            CardMetadata.updatedAt := clock s;
            CardMetadata.chunkId := CardMetadata.chunkId (WritingCard.metadata c);
            CardMetadata.color := CardMetadata.color (WritingCard.metadata c);
            CardMetadata.priority := CardMetadata.priority (WritingCard.metadata c) |} |} in
  CardManager.updateCard "k"%string CardPatch.empty s = Ok c' (set_cards (<[ "k"%string := c']> (cards s)) s).
Proof.
  intros c s.
  assert (Hwf : cards_wf s).
  { intros k c0 Hk. cbn in Hk. destruct (decide (k = "k"%string)) as [->|Hk'].
    - rewrite lookup_singleton_eq in Hk. by injection Hk as <-.
    - rewrite lookup_singleton_ne in Hk by congruence. discriminate. }
  split; [exact Hwf|]. split; [reflexivity|].
  exact (updateCard_empty_patch s "k"%string c Hwf eq_refl).
Defined.

(** C3 (code defect): [updateCard(id, { content: "" })] on a card whose
    content is ["a b"] stores the empty content, but the truthiness test
    [updates.content && ...] skips both the [edit] history entry and the
    word-count refresh: the history keeps its length and [wordCount] stays
    2 instead of [countWords("") = 0]. *)
Theorem updateCard_empty_content_skips_history :
  let c := CardManager.created_card "k"%string "a b"%string None [] None 0 in
  let s := {| cards := {[ "k"%string := c ]}; chunks := ∅; clock := 1; uuid_next := 0 |} in
  exists c' s',
    CardManager.updateCard "k"%string (CardPatch.with_content ""%string) s = Ok c' s' /\
    WritingCard.content c' = ""%string /\
    List.length (WritingCard.history c') = List.length (WritingCard.history c) /\
    CardMetadata.wordCount (WritingCard.metadata c') = 2 /\
    countWords ""%string = 0.
Proof.
  intros c s. vm_compute. eexists _, _. split; [reflexivity|]. auto.
Qed.

(** The other side of C3: a non-empty new content that differs from the
    stored one appends exactly one [edit] entry with that content and
    recomputes the word count. *)
Lemma updateCard_nonempty_content (s : Store) (id c2 : string) (upd : CardPatch.t) (c : WritingCard.t) :
  cards s !! id = Some c ->
  CardPatch.content upd = Some c2 -> c2 <> ""%string -> c2 <> WritingCard.content c ->
  exists c' s',
    CardManager.updateCard id upd s = Ok c' s' /\
    WritingCard.history c' = WritingCard.history c ++ [CardManager.entry (clock s) c2 ChangeType.edit] /\
    WritingCard.content c' = c2 /\
    CardMetadata.wordCount (WritingCard.metadata c') = countWords c2.
Proof.
  intros H Hc Hne Hdiff. rewrite (updateCard_ok _ _ _ _ H). eexists _, _. split; [reflexivity|].
  assert (Hch : CardManager.content_changed c c2 = true).
  { unfold CardManager.content_changed. destruct c2 as [|a r]; [done|]. cbn [truthy_str andb].
    apply negb_true_iff, String.eqb_neq. done. }
  unfold CardManager.updated_card. rewrite Hc, Hch.
  unfold CardManager.set_history, CardManager.merge_card. cbn. rewrite Hc.
  destruct c2; [done|]. cbn. split; [done|]. split; [done|].
  unfold CardManager.merge_metadata. by destruct (CardPatch.metadata upd).
Qed.

Lemma push_history_ok c e :
  VersionEntry.content e = WritingCard.content c -> card_history_ok (CardManager.push_history c e).
Proof.
  intros He. exists e. split; [apply last_snoc|done].
Qed.

Lemma updateCard_keeps_history_ok (s : Store) (id : string) (upd : CardPatch.t) (card : WritingCard.t) :
  cards s !! id = Some card -> card_history_ok card ->
  CardPatch.history upd = None -> CardPatch.content upd <> Some ""%string ->
  exists c s', CardManager.updateCard id upd s = Ok c s' /\ card_history_ok c /\
               cards s' !! WritingCard.id c = Some c.
Proof.
  intros H [e [Hl He]] Hh Hc. rewrite (updateCard_ok _ _ _ _ H).
  eexists _, _. split; [reflexivity|]. split; [|cbn; apply lookup_insert_eq].
  unfold CardManager.updated_card.
  destruct (CardPatch.content upd) as [c2|] eqn:Ec.
  - destruct (CardManager.content_changed card c2) eqn:Ech.
    + exists (CardManager.entry (clock s) c2 ChangeType.edit). split; [apply last_snoc|].
      cbn. by rewrite Ec.
    + exists e. unfold CardManager.merge_card. cbn. rewrite Hh, Ec. split; [done|].
      rewrite He. unfold CardManager.content_changed in Ech.
      destruct c2 as [|a r]; [done|]. cbn [truthy_str andb] in Ech.
      apply negb_false_iff, String.eqb_eq in Ech. by rewrite Ech.
  - exists e. unfold CardManager.merge_card. cbn. rewrite Hh, Ec. done.
Qed.

(** C2 (amended): after [createCard], after [splitCard], after
    [mergeCards], and after [updateCard] with a patch that does not set
    [history] and does not set [content] to [""] on a card satisfying the
    invariant, every returned card has a non-empty history whose last entry
    records its current content, and is persisted in that state. *)
Theorem history_last_matches_content :
  (forall s content title tags position,
     exists c s', CardManager.createCard content title tags position s = Ok c s' /\
                  card_history_ok c /\ cards s' !! WritingCard.id c = Some c) /\
  (forall s id upd card,
     cards s !! id = Some card -> card_history_ok card ->
     CardPatch.history upd = None -> CardPatch.content upd <> Some ""%string ->
     exists c s', CardManager.updateCard id upd s = Ok c s' /\ card_history_ok c /\
                  cards s' !! WritingCard.id c = Some c) /\
  (forall s id splitPoint card,
     cards s !! id = Some card ->
     exists c1 c2 s', CardManager.splitCard id splitPoint s = Ok (c1, c2) s' /\
                      card_history_ok c1 /\ card_history_ok c2 /\
                      cards s' !! WritingCard.id c2 = Some c2 /\
                      (WritingCard.id c1 <> WritingCard.id c2 -> cards s' !! WritingCard.id c1 = Some c1)) /\
  (forall s id1 id2 card1 card2,
     cards s !! id1 = Some card1 -> cards s !! id2 = Some card2 ->
     exists m s', CardManager.mergeCards id1 id2 s = Ok m s' /\ card_history_ok m /\
                  (WritingCard.id m <> id2 -> cards s' !! WritingCard.id m = Some m)).
Proof.
  split; [|split; [|split]].
  - intros s content title tags position. rewrite createCard_ok. cbn zeta.
    eexists _, _. split; [reflexivity|]. split.
    + eexists. split; [reflexivity|done].
    + apply lookup_insert_eq.
  - exact updateCard_keeps_history_ok.
  - intros s id p card H. unfold CardManager.splitCard. step. rewrite H.
    rewrite (updateCard_ok _ _ _ _ H). step. rewrite createCard_ok. cbn zeta. step.
    eexists _, _, _. split; [reflexivity|].
    split; [apply push_history_ok; cbn [CardManager.entry VersionEntry.content]; by erewrite updated_card_content|].
    split; [by apply push_history_ok|].
    cbn [cards set_cards]. split; [apply lookup_insert_eq|].
    intros Hne. rewrite lookup_insert_ne by done. apply lookup_insert_eq.
  - intros s id1 id2 card1 card2 H1 H2. unfold CardManager.mergeCards. step. rewrite H1, H2.
    rewrite (updateCard_ok _ _ _ _ H1). step.
    eexists _, _. split; [reflexivity|].
    split; [apply push_history_ok; cbn [CardManager.entry VersionEntry.content]; by erewrite updated_card_content|].
    intros Hne. cbn [cards set_cards]. rewrite lookup_delete_ne by done. apply lookup_insert_eq.
Qed.

Lemma history_last_matches_content_witness :
  let c := CardManager.created_card "k"%string "a b"%string None [] None 0 in
  let s := {| cards := {[ "k"%string := c ]}; chunks := ∅; clock := 1; uuid_next := 0 |} in
  let upd := CardPatch.with_content "c d"%string in
  cards s !! "k"%string = Some c /\ card_history_ok c /\
  CardPatch.history upd = None /\ CardPatch.content upd <> Some ""%string /\
  exists c' s', CardManager.updateCard "k"%string upd s = Ok c' s' /\ card_history_ok c' /\
                cards s' !! WritingCard.id c' = Some c'.
Proof.
  intros c s upd.
  assert (H : cards s !! "k"%string = Some c) by reflexivity.
  assert (Hok : card_history_ok c) by (eexists; split; reflexivity).
  assert (Hh : CardPatch.history upd = None) by reflexivity.
  assert (Hc : CardPatch.content upd <> Some ""%string) by discriminate.
  split; [exact H|]. split; [exact Hok|]. split; [exact Hh|]. split; [exact Hc|].
  exact (proj1 (proj2 history_last_matches_content) s "k"%string upd c H Hok Hh Hc).
Defined.

(** C2 counterexample: [updateCard] merges the patch shallowly, so a patch
    that carries a [history] field replaces the history; with
    [{ history: [] }] the returned and persisted card has an empty history. *)
Lemma history_patch_counterexample :
  let c := CardManager.created_card "k"%string "a b"%string None [] None 0 in
  let s := {| cards := {[ "k"%string := c ]}; chunks := ∅; clock := 1; uuid_next := 0 |} in
  card_history_ok c /\
  exists c' s', CardManager.updateCard "k"%string (CardPatch.with_history []) s = Ok c' s' /\
                ~ card_history_ok c'.
Proof.
  intros c s. split; [eexists; split; reflexivity|].
  vm_compute. eexists _, _. split; [reflexivity|].
  intros [e [Hl _]]. discriminate.
Qed.

Lemma clamp_idem n len : 0 <= len -> clamp (clamp n len) len = clamp n len.
Proof. intros H. unfold clamp. lia. Qed.

Lemma substring2_prefix_clamp str p :
  substring2 str 0 p = substring2 str 0 (clamp p (Z.of_nat (String.length str))).
Proof. unfold substring2. by rewrite clamp_idem by lia. Qed.

Lemma substring1_clamp str p :
  substring1 str p = substring1 str (clamp p (Z.of_nat (String.length str))).
Proof. unfold substring1, substring2. by rewrite clamp_idem by lia. Qed.

Lemma splitCard_clamp (s : Store) (id : string) (p : Z) (card : WritingCard.t) :
  cards s !! id = Some card ->
  CardManager.splitCard id p s =
  CardManager.splitCard id (clamp p (Z.of_nat (String.length (WritingCard.content card)))) s.
Proof.
  intros H. unfold CardManager.splitCard. step. rewrite H.
  rewrite (substring2_prefix_clamp (WritingCard.content card) p),
          (substring1_clamp (WritingCard.content card) p).
  reflexivity.
Qed.

Lemma splitCard_succeeds (s : Store) (id : string) (p : Z) (card : WritingCard.t) :
  cards s !! id = Some card -> exists r s', CardManager.splitCard id p s = Ok r s'.
Proof.
  intros H. unfold CardManager.splitCard. step. rewrite H.
  rewrite (updateCard_ok _ _ _ _ H). step. rewrite createCard_ok. cbn zeta. step.
  eexists _, _. reflexivity.
Qed.

(** C1 (amended): [splitCard] has no range check on [splitPoint]; JS
    [substring] clamps the offset into [[0, content.length]], so a negative
    offset behaves as [0], an offset past the end behaves as
    [content.length], and the call succeeds (rewriting the original card)
    instead of failing. *)
Theorem splitCard_out_of_range_clamps (s : Store) (id : string) (p : Z) (card : WritingCard.t) :
  cards s !! id = Some card ->
  let len := Z.of_nat (String.length (WritingCard.content card)) in
  (p < 0 -> CardManager.splitCard id p s = CardManager.splitCard id 0 s) /\
  (len < p -> CardManager.splitCard id p s = CardManager.splitCard id len s) /\
  exists r s', CardManager.splitCard id p s = Ok r s'.
Proof.
  intros H len. split; [|split].
  - intros Hp. rewrite (splitCard_clamp s id p card H), (splitCard_clamp s id 0 card H).
    f_equal. unfold clamp. lia.
  - intros Hp. rewrite (splitCard_clamp s id p card H), (splitCard_clamp s id len card H).
    f_equal. unfold clamp, len in *. lia.
  - by apply (splitCard_succeeds s id p card).
Qed.

Lemma splitCard_out_of_range_clamps_witness :
  let c := CardManager.created_card "k"%string "ab"%string None [] None 0 in
  let s := {| cards := {[ "k"%string := c ]}; chunks := ∅; clock := 1; uuid_next := 0 |} in
  cards s !! "k"%string = Some c /\
  let len := Z.of_nat (String.length (WritingCard.content c)) in
  ((-1) < 0 -> CardManager.splitCard "k"%string (-1) s = CardManager.splitCard "k"%string 0 s) /\
  (len < (-1) -> CardManager.splitCard "k"%string (-1) s = CardManager.splitCard "k"%string len s) /\
  exists r s', CardManager.splitCard "k"%string (-1) s = Ok r s'.
Proof.
  intros c s. assert (H : cards s !! "k"%string = Some c) by reflexivity.
  split; [exact H|]. exact (splitCard_out_of_range_clamps s "k"%string (-1) c H).
Defined.

(** C1 counterexample: on a card with content ["ab"], [splitCard(id, -1)]
    does not fail; it succeeds and the original card's persisted content
    becomes [""]. *)
Lemma splitCard_negative_offset_counterexample :
  let c := CardManager.created_card "k"%string "ab"%string None [] None 0 in
  let s := {| cards := {[ "k"%string := c ]}; chunks := ∅; clock := 1; uuid_next := 0 |} in
  exists r s', CardManager.splitCard "k"%string (-1) s = Ok r s' /\
    option_map WritingCard.content (cards s !! "k"%string) = Some "ab"%string /\
    option_map WritingCard.content (cards s' !! "k"%string) = Some ""%string.
Proof.
  intros c s. vm_compute. eexists _, _. split; [reflexivity|]. split; reflexivity.
Qed.

Lemma mapM_loadCard (s : Store) (ids : list string) :
  mapM CardStorage.loadCard ids s = Ok (map (fun k => cards s !! k) ids) s.
Proof.
  induction ids as [|k ids IH]; [reflexivity|]. cbn [mapM]. step. rewrite IH. reflexivity.
Qed.

Lemma omap_id_map {A B} (f : A -> option B) (l : list A) :
  omap (fun o => o) (map f l) = omap f l.
Proof. induction l as [|a l IH]; [done|]. cbn. destruct (f a); by rewrite IH. Qed.

(** C5 (amended): [exportChunkAsText] fails with the chunk-not-found error
    when the chunk is absent; otherwise it resolves [cardIds] in order,
    drops the ids that resolve to no card, and joins the surviving cards'
    contents with one blank line, without trimming the result. *)
Theorem exportChunkAsText_joins (s : Store) (chunkId : string) :
  (chunks s !! chunkId = None ->
   CardManager.exportChunkAsText chunkId s = Throw (CardManager.chunk_not_found chunkId) s) /\
  (forall ch, chunks s !! chunkId = Some ch ->
   CardManager.exportChunkAsText chunkId s =
     Ok (join blank_line (map WritingCard.content
           (omap (fun k => cards s !! k) (ContentChunk.cardIds ch)))) s).
Proof.
  split.
  - intros H. unfold CardManager.exportChunkAsText. step. by rewrite H.
  - intros ch H. unfold CardManager.exportChunkAsText. step. rewrite H.
    rewrite mapM_loadCard. step. by rewrite omap_id_map.
Qed.

Lemma exportChunkAsText_joins_witness :
  let c1 := CardManager.created_card "a"%string "one"%string None [] None 0 in
  let c2 := CardManager.created_card "b"%string "two"%string None [] None 0 in
  let ch := {| ContentChunk.id := "ch"%string; ContentChunk.name := "n"%string;
               ContentChunk.cardIds := ["a"%string; "gone"%string; "b"%string];
               ContentChunk.purpose := "general"%string;
               ContentChunk.layout := CardManager.default_layout |} in
  let s := {| cards := <[ "a"%string := c1 ]> {[ "b"%string := c2 ]};
              chunks := {[ "ch"%string := ch ]}; clock := 1; uuid_next := 0 |} in
  chunks s !! "ch"%string = Some ch /\
  CardManager.exportChunkAsText "ch"%string s =
    Ok (join blank_line (map WritingCard.content
          (omap (fun k => cards s !! k) (ContentChunk.cardIds ch)))) s.
Proof.
  intros c1 c2 ch s. assert (H : chunks s !! "ch"%string = Some ch) by reflexivity.
  split; [exact H|]. exact (proj2 (exportChunkAsText_joins s "ch"%string) ch H).
Defined.

(** C5 counterexample: a chunk holding one card whose content is [" a"]
    exports [" a"], not its trimmed form ["a"]. *)
Lemma exportChunkAsText_untrimmed_counterexample :
  let c := CardManager.created_card "k"%string " a"%string None [] None 0 in
  let ch := {| ContentChunk.id := "ch"%string; ContentChunk.name := "n"%string;
               ContentChunk.cardIds := ["k"%string]; ContentChunk.purpose := "general"%string;
               ContentChunk.layout := CardManager.default_layout |} in
  let s := {| cards := {[ "k"%string := c ]}; chunks := {[ "ch"%string := ch ]};
              clock := 1; uuid_next := 0 |} in
  CardManager.exportChunkAsText "ch"%string s = Ok " a"%string s /\
  trim " a"%string = "a"%string /\ " a"%string <> "a"%string.
Proof. intros c ch s. split; [vm_compute; reflexivity|]. split; [reflexivity|discriminate]. Qed.

(* ------------------------------------------------------------------ *)
(** ** Auto-arrange *)

Section Arrange.
Import CardManager.

Lemma cards_wf_build m chs t n :
  map_Forall (fun k c => WritingCard.id c = k) m ->
  cards_wf {| cards := m; chunks := chs; clock := t; uuid_next := n |}.
Proof. intros Hm k c Hk. exact (Hm k c Hk). Qed.

Lemma updateCardPosition_ok s id pos card :
  cards_wf s -> cards s !! id = Some card ->
  exists u, updateCardPosition id pos s = Ok u (set_cards (<[id := u]> (cards s)) s) /\
            WritingCard.id u = id /\ WritingCard.position u = pos.
Proof.
  intros Hwf H. unfold updateCardPosition. rewrite (updateCard_ok _ _ _ _ H).
  set (u := updated_card card _ (clock s)).
  assert (Hid : WritingCard.id u = id) by (unfold u; rewrite updated_card_id; exact (Hwf _ _ H)).
  exists u. rewrite Hid. split; [reflexivity|]. split; reflexivity.
Qed.

Lemma cards_wf_insert s id u :
  cards_wf s -> WritingCard.id u = id -> cards_wf (set_cards (<[id := u]> (cards s)) s).
Proof.
  intros Hwf Hu k c Hk. cbn [cards set_cards] in Hk.
  destruct (decide (k = id)) as [->|Hne].
  - rewrite lookup_insert_eq in Hk. by injection Hk as <-.
  - rewrite lookup_insert_ne in Hk by congruence. by apply Hwf.
Qed.

Lemma arrange_loop_ok pos i cs s :
  cards_wf s -> Forall (fun c => is_Some (cards s !! WritingCard.id c)) cs ->
  exists cs' s', arrange_loop pos i cs s = Ok cs' s' /\
    map WritingCard.id cs' = map WritingCard.id cs /\
    (forall j c, cs' !! j = Some c -> WritingCard.position c = pos (i + Z.of_nat j)).
Proof.
  revert i s. induction cs as [|c r IH]; intros i s Hwf Hall.
  - exists [], s. split; [reflexivity|]. split; [reflexivity|]. intros j c H. done.
  - inversion Hall as [|? ? [card Hc] Hr]; subst.
    destruct (updateCardPosition_ok s (WritingCard.id c) (pos i) card Hwf Hc) as (u & Hu & Huid & Hupos).
    cbn [arrange_loop]. step. rewrite Hu.
    assert (Hwf1 := cards_wf_insert s (WritingCard.id c) u Hwf Huid).
    assert (Hr1 : Forall (fun c' => is_Some (cards (set_cards (<[WritingCard.id c := u]> (cards s)) s)
                                       !! WritingCard.id c')) r).
    { eapply Forall_impl; [exact Hr|]. intros c' Hc'. cbn [cards set_cards].
      apply lookup_insert_is_Some'. by right. }
    destruct (IH (i + 1) _ Hwf1 Hr1) as (cs'' & s'' & Heq & Hids & Hpos).
    rewrite Heq. step. eexists _, _. split; [reflexivity|]. split.
    + cbn [map]. by rewrite Hids, Huid.
    + intros [|j] c' Hj.
      * injection Hj as <-. rewrite Hupos. f_equal. lia.
      * cbn in Hj. rewrite (Hpos j c' Hj). f_equal. lia.
Qed.

Lemma valid_cards_ids s ids :
  cards_wf s ->
  map WritingCard.id (omap (fun k => cards s !! k) ids) = filter (fun k => is_Some (cards s !! k)) ids.
Proof.
  intros Hwf. induction ids as [|k ids IH]; [done|]. cbn [omap list_omap].
  destruct (cards s !! k) as [c|] eqn:Hk.
  - rewrite filter_cons_True by (rewrite Hk; eauto). cbn [map]. rewrite IH. f_equal. by apply Hwf.
  - rewrite filter_cons_False by (rewrite Hk; intros [? ?]; discriminate). exact IH.
Qed.

Lemma valid_cards_stored s ids :
  cards_wf s -> Forall (fun c => is_Some (cards s !! WritingCard.id c)) (omap (fun k => cards s !! k) ids).
Proof.
  intros Hwf. induction ids as [|k ids IH]; [constructor|]. cbn [omap list_omap].
  destruct (cards s !! k) as [c|] eqn:Hk; [|exact IH].
  constructor; [|exact IH]. rewrite (Hwf _ _ Hk), Hk. eauto.
Qed.

End Arrange.

(** C6 (amended): in the grid branch, [autoArrangeCards] returns the cards
    of [cardIds] that resolve, in [cardIds] order, and places the [i]-th at
    [x = (i % columns) * (250 + spacing)], [y = floor(i / columns) * (200 + spacing)],
    where [columns = layout.columns || 3] and [spacing = layout.spacing || 20]:
    the defaults apply when the field is absent or [0]. *)
Theorem autoArrangeCards_grid (s : Store) (ids : list string) (layout : ChunkLayout.t) :
  cards_wf s -> ChunkLayout.type layout = LayoutType.grid ->
  let columns := CardManager.or_num (ChunkLayout.columns layout) 3 in
  let spacing := CardManager.or_num (ChunkLayout.spacing layout) 20 in
  exists cs s', CardManager.autoArrangeCards ids layout s = Ok cs s' /\
    map WritingCard.id cs = filter (fun k => is_Some (cards s !! k)) ids /\
    forall i c, cs !! i = Some c ->
      WritingCard.position c =
        {| CardPosition.x := Z.rem (Z.of_nat i) columns * (250 + spacing);
           CardPosition.y := Z.div (Z.of_nat i) columns * (200 + spacing);
           CardPosition.width := 250; CardPosition.height := 200;
           CardPosition.zIndex := None |}.
Proof.
  intros Hwf Htype columns spacing. unfold CardManager.autoArrangeCards. step.
  rewrite mapM_loadCard. step. rewrite Htype, omap_id_map.
  destruct (arrange_loop_ok (CardManager.grid_position columns spacing) 0
              (omap (fun k => cards s !! k) ids) s Hwf (valid_cards_stored s ids Hwf))
    as (cs & s' & Heq & Hids & Hpos).
  exists cs, s'. split; [exact Heq|]. split; [by rewrite Hids, valid_cards_ids|].
  intros i c Hi. rewrite (Hpos i c Hi). unfold CardManager.grid_position.
  replace (0 + Z.of_nat i) with (Z.of_nat i) by lia. reflexivity.
Qed.

Definition grid_example_store : Store :=
  let mk k := CardManager.created_card k k None [] None 0 in
  {| cards := <[ "c0"%string := mk "c0"%string ]> (<[ "c1"%string := mk "c1"%string ]>
              (<[ "c2"%string := mk "c2"%string ]> (<[ "c3"%string := mk "c3"%string ]>
              {[ "c4"%string := mk "c4"%string ]})));
     chunks := ∅; clock := 1; uuid_next := 0 |}.

Definition grid_example_layout : ChunkLayout.t :=
  {| ChunkLayout.type := LayoutType.grid; ChunkLayout.columns := Some 3;
     ChunkLayout.spacing := None; ChunkLayout.autoArrange := Some true |}.

Lemma grid_example_store_wf : cards_wf grid_example_store.
Proof.
  apply cards_wf_build.
  repeat (apply map_Forall_insert_2; [reflexivity|]). apply map_Forall_empty.
Qed.

Lemma autoArrangeCards_grid_witness :
  let s := grid_example_store in
  let ids := ["c0"; "c1"; "gone"; "c2"; "c3"; "c4"]%string in
  let layout := grid_example_layout in
  cards_wf s /\ ChunkLayout.type layout = LayoutType.grid /\
  let columns := CardManager.or_num (ChunkLayout.columns layout) 3 in
  let spacing := CardManager.or_num (ChunkLayout.spacing layout) 20 in
  exists cs s', CardManager.autoArrangeCards ids layout s = Ok cs s' /\
    map WritingCard.id cs = filter (fun k => is_Some (cards s !! k)) ids /\
    forall i c, cs !! i = Some c ->
      WritingCard.position c =
        {| CardPosition.x := Z.rem (Z.of_nat i) columns * (250 + spacing);
           CardPosition.y := Z.div (Z.of_nat i) columns * (200 + spacing);
           CardPosition.width := 250; CardPosition.height := 200;
           CardPosition.zIndex := None |}.
Proof.
  intros s ids layout. split; [exact grid_example_store_wf|]. split; [reflexivity|].
  exact (autoArrangeCards_grid s ids layout grid_example_store_wf eq_refl).
Defined.

(** The spec's example: with [columns = 3] and default spacing, the card
    at index 3 lands at [x = 0], [y = 220]. *)
Example autoArrangeCards_grid_index3 :
  exists cs s', CardManager.autoArrangeCards ["c0"; "c1"; "c2"; "c3"; "c4"]%string grid_example_layout
                  grid_example_store = Ok cs s' /\
    option_map (fun c => (CardPosition.x (WritingCard.position c), CardPosition.y (WritingCard.position c)))
               (cs !! 3%nat) = Some (0, 220).
Proof. vm_compute. eexists _, _. split; reflexivity. Qed.

(** C6 counterexample: an explicit [spacing = 0] is falsy, so the code
    uses 20: the card at index 1 is placed at [x = 270], where the claim's
    formula gives [(1 mod 3) * (250 + 0) = 250]. *)
Lemma autoArrangeCards_zero_spacing_counterexample :
  let layout := {| ChunkLayout.type := LayoutType.grid; ChunkLayout.columns := Some 3;
                   ChunkLayout.spacing := Some 0; ChunkLayout.autoArrange := None |} in
  exists cs s', CardManager.autoArrangeCards ["c0"; "c1"]%string layout grid_example_store = Ok cs s' /\
    option_map (fun c => CardPosition.x (WritingCard.position c)) (cs !! 1%nat) = Some 270 /\
    Z.modulo 1 3 * (250 + 0) = 250.
Proof. vm_compute. eexists _, _. split; [reflexivity|]. split; reflexivity. Qed.

(* ------------------------------------------------------------------ *)
(** ** Chunk-triggered auto-arrange *)

(** C7 (amended): [createChunk] runs [autoArrangeCards(cardIds, layout)]
    right after saving the chunk when [layout.autoArrange] is true and
    [cardIds] is non-empty. [updateChunk] runs it on the merged chunk's
    [cardIds] and [layout] only when the patch itself carries a [layout]
    whose [autoArrange] is true (and the merged [cardIds] is non-empty);
    when the patch has no such layout, it only saves the merged chunk, even
    if the stored layout has [autoArrange] true. *)
Theorem chunk_auto_arrange_trigger :
  (forall s name ids purpose layout,
     ChunkLayout.autoArrange layout = Some true -> ids <> [] ->
     let ch := {| ContentChunk.id := uuid_of (uuid_next s); ContentChunk.name := name;
                  ContentChunk.cardIds := ids; ContentChunk.purpose := purpose;
                  ContentChunk.layout := layout |} in
     let s1 := set_chunks (<[ContentChunk.id ch := ch]> (chunks s))
                 {| cards := cards s; chunks := chunks s; clock := clock s;
                    uuid_next := S (uuid_next s) |} in
     CardManager.createChunk name ids purpose layout s =
       (CardManager.autoArrangeCards ids layout;; mret ch) s1) /\
  (forall s id upd ch,
     chunks s !! id = Some ch ->
     let u := CardManager.merge_chunk ch upd in
     let s1 := set_chunks (<[ContentChunk.id u := u]> (chunks s)) s in
     (option_map ChunkLayout.autoArrange (ChunkPatch.layout upd) = Some (Some true) ->
      ContentChunk.cardIds u <> [] ->
      CardManager.updateChunk id upd s =
        (CardManager.autoArrangeCards (ContentChunk.cardIds u) (ContentChunk.layout u);; mret u) s1) /\
     (option_map ChunkLayout.autoArrange (ChunkPatch.layout upd) <> Some (Some true) ->
      CardManager.updateChunk id upd s = Ok u s1)).
Proof.
  split.
  - intros s name ids purpose layout Ha Hne ch s1.
    unfold CardManager.createChunk. step. rewrite Ha.
    rewrite bool_decide_eq_true_2 by reflexivity.
    destruct ids as [|k ids]; [done|]. cbn [andb Nat.ltb Nat.leb List.length].
    change (set_chunks _ _) with s1.
    destruct (CardManager.autoArrangeCards (k :: ids) layout s1); reflexivity.
  - intros s id upd ch H u s1. split.
    + intros Ha Hne. unfold CardManager.updateChunk. step. rewrite H. fold u. step.
      rewrite bool_decide_eq_true_2 by exact Ha.
      destruct (ContentChunk.cardIds u) as [|k ids] eqn:E; [done|]. cbn [andb Nat.ltb Nat.leb List.length].
      change (set_chunks _ _) with s1.
      destruct (CardManager.autoArrangeCards (k :: ids) (ContentChunk.layout u) s1); reflexivity.
    + intros Ha. unfold CardManager.updateChunk. step. rewrite H. fold u. step.
      rewrite bool_decide_eq_false_2 by exact Ha. reflexivity.
Qed.

Definition chunk_example : ContentChunk.t :=
  {| ContentChunk.id := "ch"; ContentChunk.name := "n"; ContentChunk.cardIds := [];
     ContentChunk.purpose := "general"; ContentChunk.layout := CardManager.default_layout |}.

Definition chunk_example_store : Store :=
  let pos := {| CardPosition.x := 5; CardPosition.y := 0;
                CardPosition.width := 250; CardPosition.height := 200;
                CardPosition.zIndex := None |} in
  {| cards := {[ "a"%string := CardManager.created_card "a" "t" None [] (Some pos) 0 ]};
     chunks := {[ "ch"%string := chunk_example ]}; clock := 1; uuid_next := 0 |}.

(** A patch that sets [cardIds] and also carries a [layout]. *)
Definition layout_patch : ChunkPatch.t :=
  {| ChunkPatch.id := None; ChunkPatch.name := None; ChunkPatch.cardIds := Some ["a"%string];
     ChunkPatch.purpose := None; ChunkPatch.layout := Some CardManager.default_layout |}.

(** A patch that sets [cardIds] only. *)
Definition ids_patch : ChunkPatch.t :=
  {| ChunkPatch.id := None; ChunkPatch.name := None; ChunkPatch.cardIds := Some ["a"%string];
     ChunkPatch.purpose := None; ChunkPatch.layout := None |}.

Lemma chunk_auto_arrange_trigger_witness :
  chunks chunk_example_store !! "ch"%string = Some chunk_example /\
  option_map ChunkLayout.autoArrange (ChunkPatch.layout layout_patch) = Some (Some true) /\
  ContentChunk.cardIds (CardManager.merge_chunk chunk_example layout_patch) <> [] /\
  CardManager.updateChunk "ch" layout_patch chunk_example_store =
    (CardManager.autoArrangeCards ["a"%string] CardManager.default_layout;;
     mret (CardManager.merge_chunk chunk_example layout_patch))
      (set_chunks (<[ "ch"%string := CardManager.merge_chunk chunk_example layout_patch ]>
                     (chunks chunk_example_store)) chunk_example_store).
Proof.
  assert (H : chunks chunk_example_store !! "ch"%string = Some chunk_example)
    by (vm_compute; reflexivity).
  split; [exact H|]. split; [reflexivity|]. split; [discriminate|].
  exact (proj1 (proj2 chunk_auto_arrange_trigger chunk_example_store "ch" layout_patch chunk_example H)
           eq_refl ltac:(discriminate)).
Defined.

(** C7 counterexample: the stored chunk's layout has [autoArrange = true]
    and the patch only sets [cardIds := ["a"]]; the resolved chunk has
    [autoArrange = true] and non-empty [cardIds], yet [updateChunk] leaves
    card ["a"] at [x = 5], while [autoArrangeCards(["a"], layout)] would
    move it to [x = 0]. *)
Lemma chunk_update_no_patch_layout_counterexample :
  exists u s', CardManager.updateChunk "ch" ids_patch chunk_example_store = Ok u s' /\
    ChunkLayout.autoArrange (ContentChunk.layout u) = Some true /\
    ContentChunk.cardIds u = ["a"%string] /\
    option_map (fun c => CardPosition.x (WritingCard.position c)) (cards s' !! "a"%string) = Some 5 /\
    exists cs s'', CardManager.autoArrangeCards (ContentChunk.cardIds u) (ContentChunk.layout u) s' = Ok cs s'' /\
      option_map (fun c => CardPosition.x (WritingCard.position c)) (cards s'' !! "a"%string) = Some 0.
Proof.
  vm_compute. eexists _, _. split; [reflexivity|].
  split; [reflexivity|]. split; [reflexivity|]. split; [reflexivity|].
  eexists _, _. split; reflexivity.
Qed.

(* ------------------------------------------------------------------ *)
(** ** CardUtils: titles, word counts, paragraphs, file names *)

Section Strings.

Lemma sapp_cons c r t : sapp (String c r) t = String c (sapp r t).
Proof. reflexivity. Qed.

Lemma sapp_nil_l s : sapp EmptyString s = s.
Proof. reflexivity. Qed.

Lemma sapp_nil_r s : sapp s EmptyString = s.
Proof. induction s as [|c r IH]; [reflexivity|]. by rewrite sapp_cons, IH. Qed.

Lemma sapp_assoc a b c : sapp (sapp a b) c = sapp a (sapp b c).
Proof. induction a as [|d r IH]; [reflexivity|]. rewrite !sapp_cons. f_equal. exact IH. Qed.

Lemma sapp_length a b : String.length (sapp a b) = (String.length a + String.length b)%nat.
Proof. induction a as [|d r IH]; [reflexivity|]. rewrite sapp_cons. simpl. by rewrite IH. Qed.

Lemma substring0_length n s :
  String.length (String.substring 0 n s) = Nat.min n (String.length s).
Proof.
  revert s. induction n as [|n IH]; intros s.
  - by destruct s.
  - destruct s as [|c r]; [reflexivity|]. simpl. by rewrite IH.
Qed.

Lemma chars_cons c r : list_ascii_of_string (String c r) = c :: list_ascii_of_string r.
Proof. reflexivity. Qed.

Lemma take_until_all p s :
  (forall c, c ∈ list_ascii_of_string s -> p c = false) -> take_until p s = s.
Proof.
  induction s as [|c r IH]; intros H; [done|]. simpl.
  rewrite (H c) by (rewrite chars_cons; left). f_equal. apply IH.
  intros d Hd. apply H. rewrite chars_cons. by right.
Qed.

Lemma ltrim_nonws c r : is_ws c = false -> ltrim (String c r) = String c r.
Proof. intros Hc. simpl. by rewrite Hc. Qed.

Lemma trim_idem s : trim (trim s) = trim s.
Proof.
  unfold trim. destruct (ltrim_head s) as [E | (c & r & E & Hc)]; rewrite E; [done|].
  destruct (rtrim_head c r Hc) as [r' Hr]. rewrite Hr, ltrim_nonws by done.
  rewrite <- Hr. apply rtrim_idem.
Qed.

(** A non-empty trimmed string starts with a non-whitespace character. *)
Lemma trimmed_head p :
  p <> EmptyString -> trim p = p -> exists c r, p = String c r /\ is_ws c = false.
Proof.
  intros Hne Hp. destruct (trim_shape p) as [E | (c & r & E & Hc & _)].
  - congruence.
  - exists c, r. split; [congruence|done].
Qed.

End Strings.

(** X1: [extractTitle] never returns more than 50 characters. *)
Theorem extractTitle_length (content : string) :
  (String.length (extractTitle content) <= 50)%nat.
Proof.
  unfold extractTitle. cbv zeta.
  set (fl := trim (take_until _ (trim content))).
  set (u := trim (take_until _ fl)).
  destruct (0 <? String.length fl)%nat; [|simpl; lia].
  destruct (String.length fl <=? 50)%nat eqn:E1; [by apply Nat.leb_le|].
  destruct (String.length u <=? 50)%nat eqn:E2; [by apply Nat.leb_le|].
  apply Nat.leb_gt in E2.
  rewrite sapp_length. unfold substring2.
  replace (clamp 0 (Z.of_nat (String.length u))) with 0 by (unfold clamp; lia).
  replace (clamp 47 (Z.of_nat (String.length u))) with 47 by (unfold clamp; lia).
  simpl (Z.to_nat _). rewrite substring0_length. simpl (String.length "..."). lia.
Qed.

Section Strings2.

Lemma rtrim_cons_ne c r : rtrim r <> EmptyString -> rtrim (String c r) = String c (rtrim r).
Proof. intros H. simpl. destruct (rtrim r); [contradiction|reflexivity]. Qed.

Lemma rtrim_sapp a b : rtrim b <> EmptyString -> rtrim (sapp a b) = sapp a (rtrim b).
Proof.
  intros Hb. induction a as [|c a IH]; [reflexivity|]. rewrite !sapp_cons.
  rewrite rtrim_cons_ne; [by rewrite IH|]. rewrite IH. destruct a; [exact Hb|discriminate].
Qed.

Lemma rtrim_nows w : (forall c, c ∈ list_ascii_of_string w -> is_ws c = false) -> rtrim w = w.
Proof.
  induction w as [|c r IH]; intros H; [reflexivity|].
  assert (Hr : rtrim r = r) by (apply IH; intros d Hd; apply H; rewrite chars_cons; by right).
  destruct r as [|d r'].
  - simpl. rewrite (H c) by (rewrite chars_cons; left). reflexivity.
  - rewrite rtrim_cons_ne by (rewrite Hr; discriminate). by rewrite Hr.
Qed.

Lemma split_ws_aux_nonnil s cur b : split_ws_aux s cur b <> [].
Proof.
  revert cur b. induction s as [|c r IH]; intros cur b; simpl; [discriminate|].
  destruct (is_ws c); [destruct b|]; [apply IH|discriminate|apply IH].
Qed.

Lemma split_ws_word w rest cur b :
  w <> EmptyString -> (forall c, c ∈ list_ascii_of_string w -> is_ws c = false) ->
  split_ws_aux (sapp w rest) cur b = split_ws_aux rest (sapp cur w) false.
Proof.
  revert cur b. induction w as [|c w IH]; intros cur b Hne H; [done|].
  rewrite sapp_cons. cbn [split_ws_aux]. rewrite (H c) by (rewrite chars_cons; left).
  destruct w as [|d w'].
  - reflexivity.
  - rewrite IH by (try discriminate; intros e He; apply H; rewrite chars_cons; by right).
    by rewrite sapp_assoc.
Qed.

Lemma join_sep_cons sep w v ws : join sep (w :: v :: ws) = sapp w (sapp sep (join sep (v :: ws))).
Proof. reflexivity. Qed.

Lemma split_ws_join w ws cur b :
  Forall (fun w => w <> EmptyString /\ forall c, c ∈ list_ascii_of_string w -> is_ws c = false) (w :: ws) ->
  split_ws_aux (join " " (w :: ws)) cur b = sapp cur w :: ws.
Proof.
  revert w cur b. induction ws as [|v ws IH]; intros w cur b H; inversion H as [|? ? [Hw Hc] Hr]; subst.
  - cbn [join]. pose proof (split_ws_word w EmptyString cur b Hw Hc) as E.
    rewrite sapp_nil_r in E. by rewrite E.
  - rewrite join_sep_cons, split_ws_word by done.
    change (sapp " " ?j) with (String " " j). cbn [split_ws_aux].
    change (is_ws " ") with true. cbv iota.
    rewrite (IH v EmptyString true Hr). reflexivity.
Qed.

Lemma join_ws_head w ws :
  Forall (fun w => w <> EmptyString /\ forall c, c ∈ list_ascii_of_string w -> is_ws c = false) (w :: ws) ->
  exists c r, join " " (w :: ws) = String c r /\ is_ws c = false.
Proof.
  intros H. inversion H as [|? ? [Hw Hc] _]; subst.
  destruct w as [|c w']; [done|]. exists c.
  destruct ws as [|v ws].
  - exists w'. split; [reflexivity|]. apply Hc. rewrite chars_cons. left.
  - eexists. rewrite join_sep_cons, sapp_cons. split; [reflexivity|]. apply Hc. rewrite chars_cons. left.
Qed.

Lemma rtrim_join_ws w ws :
  Forall (fun w => w <> EmptyString /\ forall c, c ∈ list_ascii_of_string w -> is_ws c = false) (w :: ws) ->
  rtrim (join " " (w :: ws)) = join " " (w :: ws).
Proof.
  revert w. induction ws as [|v ws IH]; intros w H; inversion H as [|? ? [Hw Hc] Hr]; subst.
  - by apply rtrim_nows.
  - rewrite join_sep_cons. destruct (join_ws_head v ws Hr) as (c & r & E & _).
    assert (Hj : rtrim (join " " (v :: ws)) = join " " (v :: ws)) by (by apply IH).
    rewrite rtrim_sapp.
    + change (sapp " " ?j) with (String " " j).
      rewrite rtrim_cons_ne; [by rewrite Hj|]. rewrite Hj, E. discriminate.
    + change (sapp " " ?j) with (String " " j).
      rewrite rtrim_cons_ne; [discriminate|]. rewrite Hj, E. discriminate.
Qed.

Lemma is_nl_ws c : is_nl c = true -> is_ws c = true.
Proof. unfold is_nl. intros H. apply bool_decide_eq_true_1 in H. by subst. Qed.

Lemma is_nl_false c : c <> "010"%char -> is_nl c = false.
Proof. intros H. by apply bool_decide_eq_false_2. Qed.

Lemma split_blank_word p rest cur :
  (forall c, c ∈ list_ascii_of_string p -> c <> "010"%char) ->
  split_blank_aux (sapp p rest) BNormal cur EmptyString =
    split_blank_aux rest BNormal (sapp cur p) EmptyString.
Proof.
  revert cur. induction p as [|c p IH]; intros cur H; [by rewrite sapp_nil_r|].
  rewrite sapp_cons. cbn [split_blank_aux].
  rewrite is_nl_false by (apply H; rewrite chars_cons; left).
  rewrite IH by (intros d Hd; apply H; rewrite chars_cons; by right).
  by rewrite sapp_assoc.
Qed.

Lemma split_blank_matched c r :
  is_ws c = false ->
  split_blank_aux (String c r) BMatched EmptyString EmptyString =
    split_blank_aux (String c r) BNormal EmptyString EmptyString.
Proof.
  intros Hc. assert (Hn : is_nl c = false).
  { destruct (is_nl c) eqn:E; [|done]. apply is_nl_ws in E. congruence. }
  cbn [split_blank_aux]. by rewrite Hn, Hc.
Qed.

Lemma join_head sep q ps : exists r, join sep (q :: ps) = sapp q r.
Proof.
  destruct ps as [|v ps].
  - exists EmptyString. by rewrite sapp_nil_r.
  - eexists. apply join_sep_cons.
Qed.

Lemma split_blank_join p ps cur :
  Forall (fun p => p <> EmptyString /\ trim p = p /\
            forall c, c ∈ list_ascii_of_string p -> c <> "010"%char) (p :: ps) ->
  split_blank_aux (join blank_line (p :: ps)) BNormal cur EmptyString = sapp cur p :: ps.
Proof.
  revert p cur. induction ps as [|q ps IH]; intros p cur H;
    inversion H as [|? ? (Hne & Ht & Hn) Hr]; subst.
  - cbn [join]. pose proof (split_blank_word p EmptyString cur Hn) as E.
    rewrite sapp_nil_r in E. by rewrite E.
  - rewrite join_sep_cons, split_blank_word by done.
    change (sapp blank_line ?j) with (String "010"%char (String "010"%char j)).
    cbn [split_blank_aux]. change (is_nl "010"%char) with true. cbv iota.
    inversion Hr as [|? ? (Hne' & Ht' & _) _]; subst.
    destruct (trimmed_head q Hne' Ht') as (c & q' & -> & Hc).
    destruct (join_head blank_line (String c q') ps) as [r Er].
    rewrite Er, sapp_cons, split_blank_matched by done.
    rewrite <- sapp_cons, <- Er, IH by done. reflexivity.
Qed.

Lemma filter_map_trim l :
  Forall (fun p => p <> EmptyString /\ trim p = p) l ->
  filter (fun p => (0 < String.length p)%nat) (map trim l) = l.
Proof.
  induction 1 as [|p l (Hne & Ht) _ IH]; [done|]. cbn [map]. rewrite Ht.
  rewrite filter_cons_True; [by rewrite IH|]. destruct p; [done|]. simpl. lia.
Qed.

End Strings2.

(** X2: [extractTitle] of blank content is ["Untitled Card"]; when the
    trimmed content is a single line of 1 to 50 characters, the title is
    the trimmed content itself. *)
Theorem extractTitle_single_line (content : string) :
  (trim content = EmptyString -> extractTitle content = "Untitled Card"%string) /\
  ((forall c, c ∈ list_ascii_of_string (trim content) -> c <> "010"%char) ->
   (0 < String.length (trim content) <= 50)%nat -> extractTitle content = trim content).
Proof.
  split.
  - intros E. unfold extractTitle. cbv zeta. rewrite E. reflexivity.
  - intros Hnl Hlen. unfold extractTitle. cbv zeta.
    rewrite (take_until_all _ (trim content)).
    + rewrite trim_idem. rewrite (proj2 (Nat.ltb_lt _ _)) by lia.
      rewrite (proj2 (Nat.leb_le _ _)) by lia. reflexivity.
    + intros c Hc. apply bool_decide_eq_false_2. by apply Hnl.
Qed.

Lemma extractTitle_single_line_witness :
  ((forall c, c ∈ list_ascii_of_string (trim " Hello "%string) -> c <> "010"%char) /\
   (0 < String.length (trim " Hello "%string) <= 50)%nat) /\
  extractTitle " Hello " = "Hello"%string.
Proof.
  assert (H : forall c, c ∈ list_ascii_of_string (trim " Hello "%string) -> c <> "010"%char).
  { vm_compute. intros c Hc. repeat (apply elem_of_cons in Hc as [->|Hc]; [discriminate|]).
    by apply elem_of_nil in Hc. }
  split; [split; [exact H|vm_compute; lia]|].
  exact (proj2 (extractTitle_single_line " Hello ") H ltac:(vm_compute; lia)).
Defined.

(** X3: [createCard] without a title can store a card with an empty title:
    when the content is ['.'] followed by at least 50 characters with no
    newline and no trailing whitespace, the trimmed first line is longer
    than 50 characters, its first "sentence" is empty and [extractTitle]
    returns the empty string. *)
Theorem createCard_empty_title (s : Store) (r : string) (tags : list string)
    (position : option CardPosition.t) :
  rtrim r = r -> (forall c, c ∈ list_ascii_of_string r -> c <> "010"%char) ->
  (50 <= String.length r)%nat ->
  exists card s', CardManager.createCard (String "." r) None tags position s = Ok card s' /\
    cards s' !! WritingCard.id card = Some card /\
    WritingCard.content card = String "." r /\ WritingCard.title card = EmptyString.
Proof.
  intros Hr Hnl Hlen.
  assert (Ht : trim (String "." r) = String "." r).
  { unfold trim. rewrite ltrim_nonws by reflexivity.
    rewrite rtrim_cons_ne; [by rewrite Hr|]. rewrite Hr. destruct r; [simpl in Hlen; lia|discriminate]. }
  assert (Hx : extractTitle (String "." r) = EmptyString).
  { unfold extractTitle. cbv zeta. rewrite Ht.
    rewrite (take_until_all _ (String "." r)).
    - rewrite Ht. cbn [String.length]. rewrite (proj2 (Nat.ltb_lt _ _)) by lia.
      rewrite (proj2 (Nat.leb_gt _ _)) by lia. reflexivity.
    - intros c Hc. apply bool_decide_eq_false_2. rewrite chars_cons in Hc.
      apply elem_of_cons in Hc as [->|Hc]; [discriminate|]. by apply Hnl. }
  rewrite createCard_ok. cbv zeta. eexists _, _. split; [reflexivity|].
  split; [cbn [cards set_cards]; by rewrite lookup_insert_eq|]. split; [reflexivity|].
  cbn [WritingCard.title CardManager.created_card CardManager.or_str]. exact Hx.
Qed.

Definition dots50 : string :=
  "aaaaaaaaaaaaaaaaaaaaaaaaaaaaaaaaaaaaaaaaaaaaaaaaaa".

Lemma createCard_empty_title_witness :
  exists card s', CardManager.createCard (String "." dots50) None [] None grid_example_store = Ok card s' /\
    cards s' !! WritingCard.id card = Some card /\
    WritingCard.content card = String "." dots50 /\ WritingCard.title card = EmptyString.
Proof.
  apply (createCard_empty_title grid_example_store dots50 [] None).
  - vm_compute. reflexivity.
  - intros c Hc. vm_compute in Hc.
    repeat (apply elem_of_cons in Hc as [->|Hc]; [discriminate|]). by apply elem_of_nil in Hc.
  - vm_compute. lia.
Defined.

(** X4: [countWords] is [0] exactly when the content is empty or only
    whitespace. *)
Theorem countWords_zero_iff (content : string) :
  countWords content = 0 <-> trim content = EmptyString.
Proof.
  unfold countWords. destruct (decide (trim content = EmptyString)) as [E|E].
  - rewrite E. simpl. rewrite orb_true_r. done.
  - assert (Hl : (String.length (trim content) =? 0)%nat = false)
      by (destruct (trim content); [done|reflexivity]).
    assert (Ht : truthy_str content = true)
      by (destruct content; [by exfalso; apply E|reflexivity]).
    rewrite Hl, Ht. simpl. split; [|done]. intros H.
    pose proof (split_ws_aux_nonnil (trim content) EmptyString false) as Hn.
    unfold split_ws in H. destruct (split_ws_aux (trim content) EmptyString false); [done|].
    simpl in H. lia.
Qed.

(** X5: joining non-empty whitespace-free words with single spaces and
    counting gives back the number of words. *)
Theorem countWords_join_words (ws : list string) :
  Forall (fun w => w <> EmptyString /\ forall c, c ∈ list_ascii_of_string w -> is_ws c = false) ws ->
  countWords (join " " ws) = Z.of_nat (List.length ws).
Proof.
  destruct ws as [|w ws]; [reflexivity|]. intros H.
  destruct (join_ws_head w ws H) as (c & r & E & Hc).
  assert (Ht : trim (join " " (w :: ws)) = join " " (w :: ws)).
  { unfold trim. rewrite E, ltrim_nonws by done. rewrite <- E. by apply rtrim_join_ws. }
  unfold countWords. rewrite Ht, E. cbn [truthy_str negb orb String.length Nat.eqb].
  rewrite <- E. unfold split_ws. rewrite split_ws_join by done. reflexivity.
Qed.

Lemma countWords_join_words_witness :
  Forall (fun w => w <> EmptyString /\ forall c, c ∈ list_ascii_of_string w -> is_ws c = false)
    ["one"; "two"]%string /\
  countWords (join " " ["one"; "two"]%string) = 2.
Proof.
  assert (H : Forall (fun w => w <> EmptyString /\ forall c, c ∈ list_ascii_of_string w -> is_ws c = false)
                ["one"; "two"]%string).
  { repeat constructor; try discriminate; intros c Hc; vm_compute in Hc;
      repeat (apply elem_of_cons in Hc as [->|Hc]; [reflexivity|]); by apply elem_of_nil in Hc. }
  split; [exact H|]. exact (countWords_join_words _ H).
Defined.

(** X6: with [maxLength >= 3], [truncateText] returns a text that fits in
    [maxLength] unchanged, and otherwise its first [maxLength - 3]
    characters followed by ["..."], exactly [maxLength] characters long. *)
Theorem truncateText_fits (text : string) (maxLength : Z) :
  3 <= maxLength ->
  (Z.of_nat (String.length text) <= maxLength -> truncateText text maxLength = text) /\
  (maxLength < Z.of_nat (String.length text) ->
     truncateText text maxLength =
       sapp (String.substring 0 (Z.to_nat (maxLength - 3)) text) "..." /\
     Z.of_nat (String.length (truncateText text maxLength)) = maxLength).
Proof.
  intros Hm. unfold truncateText. split.
  - intros H. rewrite (proj2 (Z.leb_le _ _) H). reflexivity.
  - intros H. rewrite (proj2 (Z.leb_gt _ _) H). unfold substring2.
    replace (clamp 0 _) with 0 by (unfold clamp; lia).
    replace (clamp (maxLength - 3) _) with (maxLength - 3) by (unfold clamp; lia).
    rewrite Z.min_l by lia. rewrite Z.max_r by lia.
    replace (maxLength - 3 - 0) with (maxLength - 3) by lia.
    split; [reflexivity|]. rewrite sapp_length, substring0_length.
    simpl (String.length "..."). lia.
Qed.

Lemma truncateText_fits_witness :
  3 <= 5 /\ truncateText "abcdefgh" 5 = "ab..."%string.
Proof.
  split; [lia|].
  destruct (truncateText_fits "abcdefgh" 5 ltac:(lia)) as [_ H].
  exact (proj1 (H ltac:(vm_compute; reflexivity))).
Defined.

(** X7: with [maxLength < 3], a text longer than [maxLength] is truncated to
    ["..."], which is longer than [maxLength]. *)
Theorem truncateText_small_limit (text : string) (maxLength : Z) :
  maxLength < 3 -> maxLength < Z.of_nat (String.length text) ->
  truncateText text maxLength = "..."%string.
Proof.
  intros Hm H. unfold truncateText. rewrite (proj2 (Z.leb_gt _ _) H). unfold substring2.
  replace (clamp 0 _) with 0 by (unfold clamp; lia).
  replace (clamp (maxLength - 3) _) with 0 by (unfold clamp; lia).
  simpl (Z.to_nat _). by destruct text.
Qed.

Lemma truncateText_small_limit_witness :
  2 < 3 /\ 2 < Z.of_nat (String.length "abcd") /\ truncateText "abcd" 2 = "..."%string.
Proof.
  split; [lia|]. split; [vm_compute; reflexivity|].
  apply truncateText_small_limit; [lia|vm_compute; reflexivity].
Defined.

Section Sanitize.

Lemma lower_char_props c :
  is_fname_reserved (lower_char c) = is_fname_reserved c /\
  is_ws (lower_char c) = is_ws c /\ lower_char (lower_char c) = lower_char c.
Proof.
  destruct c as [b0 b1 b2 b3 b4 b5 b6 b7].
  destruct b0, b1, b2, b3, b4, b5, b6, b7; vm_compute; repeat split.
Qed.

Definition clean_char (c : ascii) : Prop :=
  is_fname_reserved c = false /\ is_ws c = false /\ lower_char c = c.

Lemma replace_chars_spec p r s :
  p r = false ->
  forall c, c ∈ list_ascii_of_string (replace_chars p r s) -> p c = false.
Proof.
  intros Hr. induction s as [|d t IH]; intros c Hc; simpl in Hc.
  - by apply elem_of_nil in Hc.
  - apply elem_of_cons in Hc as [->|Hc]; [|by apply IH].
    destruct (p d) eqn:E; [exact Hr|exact E].
Qed.

Lemma replace_ws_runs_spec r s b :
  is_fname_reserved r = false -> is_ws r = false ->
  (forall c, c ∈ list_ascii_of_string s -> is_fname_reserved c = false) ->
  forall c, c ∈ list_ascii_of_string (replace_ws_runs r s b) ->
    is_fname_reserved c = false /\ is_ws c = false.
Proof.
  intros Hr1 Hr2. revert b. induction s as [|d t IH]; intros b Hs c Hc; simpl in Hc.
  - by apply elem_of_nil in Hc.
  - assert (Ht : forall c, c ∈ list_ascii_of_string t -> is_fname_reserved c = false)
      by (intros e He; apply Hs; rewrite chars_cons; by right).
    destruct (is_ws d) eqn:Hd; [destruct b|].
    + by apply (IH true Ht).
    + simpl in Hc. apply elem_of_cons in Hc as [->|Hc]; [done|]. by apply (IH true Ht).
    + simpl in Hc. apply elem_of_cons in Hc as [->|Hc]; [|by apply (IH false Ht)].
      split; [apply Hs; rewrite chars_cons; left|exact Hd].
Qed.

Lemma to_lower_spec s :
  (forall c, c ∈ list_ascii_of_string s -> is_fname_reserved c = false /\ is_ws c = false) ->
  forall c, c ∈ list_ascii_of_string (to_lower s) -> clean_char c.
Proof.
  induction s as [|d t IH]; intros Hs c Hc; simpl in Hc.
  - by apply elem_of_nil in Hc.
  - apply elem_of_cons in Hc as [->|Hc].
    + destruct (Hs d) as [H1 H2]; [rewrite chars_cons; left|].
      destruct (lower_char_props d) as (E1 & E2 & E3). unfold clean_char. by rewrite E1, E2, E3.
    + apply IH; [|exact Hc]. intros e He. apply Hs. rewrite chars_cons. by right.
Qed.

Lemma sanitize_chars f c :
  c ∈ list_ascii_of_string (sanitizeFilename f) -> clean_char c.
Proof.
  unfold sanitizeFilename. apply to_lower_spec. apply replace_ws_runs_spec; [reflexivity|reflexivity|].
  apply replace_chars_spec. reflexivity.
Qed.

Lemma sanitize_fixed s :
  (forall c, c ∈ list_ascii_of_string s -> clean_char c) -> sanitizeFilename s = s.
Proof.
  intros H. unfold sanitizeFilename.
  assert (E1 : replace_chars is_fname_reserved "-" s = s).
  { clear -H. induction s as [|d t IH]; [reflexivity|]. simpl.
    destruct (H d) as [Hd _]; [rewrite chars_cons; left|]. rewrite Hd, IH; [done|].
    intros e He. apply H. rewrite chars_cons. by right. }
  assert (E2 : forall b, replace_ws_runs "_" s b = s).
  { clear -H. induction s as [|d t IH]; intros b; [reflexivity|]. simpl.
    destruct (H d) as (_ & Hd & _); [rewrite chars_cons; left|]. rewrite Hd, IH; [done|].
    intros e He. apply H. rewrite chars_cons. by right. }
  assert (E3 : to_lower s = s).
  { clear -H. induction s as [|d t IH]; [reflexivity|]. simpl.
    destruct (H d) as (_ & _ & Hd); [rewrite chars_cons; left|]. rewrite Hd, IH; [done|].
    intros e He. apply H. rewrite chars_cons. by right. }
  by rewrite E1, E2, E3.
Qed.

End Sanitize.

(** X8: no character of [sanitizeFilename(f)] is one of the reserved
    file-name characters (less-than, greater-than, colon, double quote,
    slash, backslash, bar, question mark, asterisk) or whitespace, and
    every character is already lower case. *)
Theorem sanitizeFilename_clean (f : string) :
  forall c, c ∈ list_ascii_of_string (sanitizeFilename f) ->
    is_fname_reserved c = false /\ is_ws c = false /\ lower_char c = c.
Proof. intros c Hc. exact (sanitize_chars f c Hc). Qed.

Lemma sanitizeFilename_clean_witness :
  "-"%char ∈ list_ascii_of_string (sanitizeFilename "My:File"%string) /\
  (is_fname_reserved "-" = false /\ is_ws "-" = false /\ lower_char "-" = "-"%char).
Proof.
  assert (H : "-"%char ∈ list_ascii_of_string (sanitizeFilename "My:File"%string))
    by (change (list_ascii_of_string (sanitizeFilename "My:File"%string))
          with ["m"; "y"; "-"; "f"; "i"; "l"; "e"]%char;
        apply elem_of_cons; right; apply elem_of_cons; right; apply elem_of_cons; left;
        reflexivity).
  split; [exact H|exact (sanitizeFilename_clean _ _ H)].
Defined.

(** X9: [sanitizeFilename] is idempotent. *)
Theorem sanitizeFilename_idem (f : string) :
  sanitizeFilename (sanitizeFilename f) = sanitizeFilename f.
Proof. apply sanitize_fixed. intros c Hc. exact (sanitize_chars f c Hc). Qed.

(** X10: every paragraph [detectParagraphs] returns is non-empty and
    trimmed. *)
Theorem detectParagraphs_trimmed (text : string) :
  Forall (fun p => p <> EmptyString /\ trim p = p) (detectParagraphs text).
Proof.
  unfold detectParagraphs. induction (split_blank text) as [|w l IH]; [constructor|].
  cbn [map]. rewrite filter_cons. case_decide as Hw; [|exact IH].
  constructor; [|exact IH]. split; [|apply trim_idem].
  intros E. rewrite E in Hw. simpl in Hw. lia.
Qed.

(** X11: [detectParagraphs] splits back a text built by joining paragraphs
    with one blank line, when every paragraph is non-empty, trimmed and
    free of newlines. *)
Theorem detectParagraphs_join (ps : list string) :
  Forall (fun p => p <> EmptyString /\ trim p = p /\
            forall c, c ∈ list_ascii_of_string p -> c <> "010"%char) ps ->
  detectParagraphs (join blank_line ps) = ps.
Proof.
  destruct ps as [|p ps]; [reflexivity|]. intros H.
  unfold detectParagraphs, split_blank. rewrite split_blank_join by exact H.
  rewrite sapp_nil_l. apply filter_map_trim.
  eapply Forall_impl; [exact H|]. intros q (Hq1 & Hq2 & _). by split.
Qed.

Lemma detectParagraphs_join_witness :
  Forall (fun p => p <> EmptyString /\ trim p = p /\
            forall c, c ∈ list_ascii_of_string p -> c <> "010"%char) ["First one."; "Second."]%string /\
  detectParagraphs (join blank_line ["First one."; "Second."]%string) = ["First one."; "Second."]%string.
Proof.
  assert (H : Forall (fun p => p <> EmptyString /\ trim p = p /\
            forall c, c ∈ list_ascii_of_string p -> c <> "010"%char) ["First one."; "Second."]%string).
  { repeat constructor; try discriminate; try (vm_compute; reflexivity);
      intros c Hc; vm_compute in Hc;
      repeat (apply elem_of_cons in Hc as [->|Hc]; [discriminate|]); by apply elem_of_nil in Hc. }
  split; [exact H|]. exact (detectParagraphs_join _ H).
Defined.

(* ------------------------------------------------------------------ *)
(** ** Card and chunk store operations *)

(** The store an operation ends in, whether it returned or threw. *)
Definition store_of {A} (r : Result A) : Store :=
  match r with Ok _ s => s | Throw _ s => s end.

(** [m] never writes the [chunks/] directory. *)
Definition keeps_chunks {A} (m : M A) : Prop :=
  forall s, chunks (store_of (m s)) = chunks s.

Section StoreOps.
Import CardManager.

Lemma keeps_chunks_bind {A B} (m : M A) (f : A -> M B) :
  keeps_chunks m -> (forall a, keeps_chunks (f a)) -> keeps_chunks (x ← m; f x).
Proof.
  intros Hm Hf s. specialize (Hm s). unfold mbind, M_bind.
  destruct (m s) as [a s1|e s1]; simpl in *; [|done]. by rewrite Hf.
Qed.

Lemma keeps_chunks_ret {A} (a : A) : keeps_chunks (mret a).
Proof. intros s. reflexivity. Qed.

Lemma keeps_chunks_updateCard id upd : keeps_chunks (updateCard id upd).
Proof.
  intros s. destruct (cards s !! id) as [card|] eqn:H.
  - by rewrite (updateCard_ok _ _ _ _ H).
  - by rewrite (updateCard_missing _ _ _ H).
Qed.

Lemma keeps_chunks_arrange_loop pos i cs : keeps_chunks (arrange_loop pos i cs).
Proof.
  revert i. induction cs as [|c r IH]; intros i; [apply keeps_chunks_ret|]. cbn [arrange_loop].
  apply keeps_chunks_bind; [apply keeps_chunks_updateCard|]. intros c'.
  apply keeps_chunks_bind; [apply IH|]. intros r'. apply keeps_chunks_ret.
Qed.

Lemma keeps_chunks_autoArrange ids layout : keeps_chunks (autoArrangeCards ids layout).
Proof.
  intros s. unfold autoArrangeCards. unfold mbind at 1, M_bind at 1. rewrite mapM_loadCard.
  destruct (ChunkLayout.type layout); [apply keeps_chunks_arrange_loop|reflexivity|apply keeps_chunks_arrange_loop].
Qed.

Lemma updateChunk_store s id upd ch :
  chunks s !! id = Some ch ->
  let u := merge_chunk ch upd in
  chunks (store_of (updateChunk id upd s)) = <[ContentChunk.id u := u]> (chunks s) /\
  (forall v s', updateChunk id upd s = Ok v s' -> v = u).
Proof.
  intros H u. unfold updateChunk. step. rewrite H. fold u. step.
  set (s1 := set_chunks (<[ContentChunk.id u:=u]> (chunks s)) s).
  destruct (_ && _); [|split; [reflexivity|by intros v s' [= <- _]]].
  pose proof (keeps_chunks_autoArrange (ContentChunk.cardIds u) (ContentChunk.layout u) s1) as K.
  destruct (autoArrangeCards _ _ s1) as [a s2|e s2]; simpl in *.
  - split; [exact K|by intros v s' [= <- _]].
  - split; [exact K|done].
Qed.

End StoreOps.

(** X13: [createCard] stores the card it returns under a fresh id, where
    [getCard] finds it; no other card document changes. *)
Theorem createCard_getCard (s : Store) content title tags position :
  exists card s', CardManager.createCard content title tags position s = Ok card s' /\
    WritingCard.id card = uuid_of (uuid_next s) /\ uuid_next s' = S (uuid_next s) /\
    CardManager.getCard (WritingCard.id card) s' = Ok (Some card) s' /\
    (forall k, k <> WritingCard.id card -> cards s' !! k = cards s !! k).
Proof.
  rewrite createCard_ok. cbv zeta. eexists _, _. split; [reflexivity|].
  split; [reflexivity|]. split; [reflexivity|]. split.
  - unfold CardManager.getCard, CardStorage.loadCard. cbn [cards set_cards]. by rewrite lookup_insert_eq.
  - intros k Hk. cbn [cards set_cards]. by rewrite lookup_insert_ne by congruence.
Qed.

(** X14: on an id with no stored card, [updateCard], [updateCardPosition]
    and [splitCard] throw ["Card with id <id> not found"], and
    [mergeCards] with that id on either side throws ["One or both cards not
    found"], all without writing anything. *)
Theorem missing_card_errors (s : Store) (id : string) :
  cards s !! id = None ->
  (forall upd, CardManager.updateCard id upd s = Throw (CardManager.card_not_found id) s) /\
  (forall pos, CardManager.updateCardPosition id pos s = Throw (CardManager.card_not_found id) s) /\
  (forall p, CardManager.splitCard id p s = Throw (CardManager.card_not_found id) s) /\
  (forall other,
     CardManager.mergeCards id other s = Throw (mkError "One or both cards not found") s /\
     CardManager.mergeCards other id s = Throw (mkError "One or both cards not found") s).
Proof.
  intros H. split; [|split; [|split]].
  - intros upd. by apply updateCard_missing.
  - intros pos. by apply updateCard_missing.
  - intros p. unfold CardManager.splitCard. step. by rewrite H.
  - intros other. unfold CardManager.mergeCards. step. rewrite H.
    split; [reflexivity|]. by destruct (cards s !! other).
Qed.

Lemma missing_card_errors_witness :
  cards grid_example_store !! "nope"%string = None /\
  CardManager.splitCard "nope" 3 grid_example_store =
    Throw (CardManager.card_not_found "nope") grid_example_store.
Proof.
  assert (H : cards grid_example_store !! "nope"%string = None) by (vm_compute; reflexivity).
  split; [exact H|]. exact (proj1 (proj2 (proj2 (missing_card_errors grid_example_store "nope" H))) 3).
Defined.

(** X15: on an id with no stored chunk, [updateChunk] throws ["Chunk with id
    <id> not found"] without writing anything, and [getChunk] returns
    [null]. *)
Theorem missing_chunk_errors (s : Store) (id : string) :
  chunks s !! id = None ->
  (forall upd, CardManager.updateChunk id upd s = Throw (CardManager.chunk_not_found id) s) /\
  CardManager.getChunk id s = Ok None s.
Proof.
  intros H. split.
  - intros upd. unfold CardManager.updateChunk. step. by rewrite H.
  - unfold CardManager.getChunk, CardStorage.loadChunk. by rewrite H.
Qed.

Lemma missing_chunk_errors_witness :
  chunks grid_example_store !! "nope"%string = None /\
  CardManager.getChunk "nope" grid_example_store = Ok None grid_example_store.
Proof.
  assert (H : chunks grid_example_store !! "nope"%string = None) by (vm_compute; reflexivity).
  split; [exact H|]. exact (proj2 (missing_chunk_errors grid_example_store "nope" H)).
Defined.

(** X16: [updateCardPosition] on a stored card changes only its [position]
    and [metadata.updatedAt] (set to the current time): id, title,
    content, tags, status, history and the other metadata stay as they
    were; the card is saved under its id. *)
Theorem updateCardPosition_effect (s : Store) (id : string) (pos : CardPosition.t)
    (card : WritingCard.t) :
  cards s !! id = Some card ->
  let md := WritingCard.metadata card in
  let u := {| WritingCard.id := WritingCard.id card; WritingCard.title := WritingCard.title card;
              WritingCard.content := WritingCard.content card; WritingCard.tags := WritingCard.tags card;
              WritingCard.status := WritingCard.status card;
              WritingCard.history := WritingCard.history card;
              WritingCard.position := pos;
              WritingCard.metadata :=
                {| CardMetadata.wordCount := CardMetadata.wordCount md;
                   CardMetadata.createdAt := CardMetadata.createdAt md;
                   CardMetadata.updatedAt := clock s;
                   CardMetadata.chunkId := CardMetadata.chunkId md;
                   CardMetadata.color := CardMetadata.color md;
                   CardMetadata.priority := CardMetadata.priority md |} |} in
  CardManager.updateCardPosition id pos s = Ok u (set_cards (<[WritingCard.id card := u]> (cards s)) s).
Proof.
  intros H md u. unfold CardManager.updateCardPosition. rewrite (updateCard_ok _ _ _ _ H).
  reflexivity.
Qed.

Lemma updateCardPosition_effect_witness :
  cards grid_example_store !! "c1"%string =
    Some (CardManager.created_card "c1" "c1" None [] None 0) /\
  exists u s', CardManager.updateCardPosition "c1" CardManager.default_position grid_example_store = Ok u s'.
Proof.
  assert (H : cards grid_example_store !! "c1"%string =
                Some (CardManager.created_card "c1" "c1" None [] None 0)) by (vm_compute; reflexivity).
  split; [exact H|]. eexists _, _.
  exact (updateCardPosition_effect grid_example_store "c1" CardManager.default_position _ H).
Defined.

(** X17: in a [freeform] layout, [autoArrangeCards] moves nothing: it returns
    the cards of [cardIds] that exist, in order, and leaves the store as it
    was. *)
Theorem autoArrangeCards_freeform (s : Store) (ids : list string) (layout : ChunkLayout.t) :
  ChunkLayout.type layout = LayoutType.freeform ->
  CardManager.autoArrangeCards ids layout s = Ok (omap (fun k => cards s !! k) ids) s.
Proof.
  intros Ht. unfold CardManager.autoArrangeCards. step. rewrite mapM_loadCard. step.
  rewrite Ht, omap_id_map. reflexivity.
Qed.

Lemma autoArrangeCards_freeform_witness :
  ChunkLayout.type {| ChunkLayout.type := LayoutType.freeform; ChunkLayout.columns := None;
                      ChunkLayout.spacing := None; ChunkLayout.autoArrange := None |} = LayoutType.freeform /\
  CardManager.autoArrangeCards ["c0"; "x"]%string
    {| ChunkLayout.type := LayoutType.freeform; ChunkLayout.columns := None;
       ChunkLayout.spacing := None; ChunkLayout.autoArrange := None |} grid_example_store =
    Ok (omap (fun k => cards grid_example_store !! k) ["c0"; "x"]%string) grid_example_store.
Proof. split; [reflexivity|]. by apply autoArrangeCards_freeform. Defined.

(** X18: in a [linear] layout, [autoArrangeCards] returns the cards of
    [cardIds] that exist, in order, and places the [i]-th at
    [x = i * (250 + spacing)], [y = 0], size 250 x 200, where
    [spacing = layout.spacing || 20]. *)
Theorem autoArrangeCards_linear (s : Store) (ids : list string) (layout : ChunkLayout.t) :
  cards_wf s -> ChunkLayout.type layout = LayoutType.linear ->
  let spacing := CardManager.or_num (ChunkLayout.spacing layout) 20 in
  exists cs s', CardManager.autoArrangeCards ids layout s = Ok cs s' /\
    map WritingCard.id cs = filter (fun k => is_Some (cards s !! k)) ids /\
    forall i c, cs !! i = Some c ->
      WritingCard.position c =
        {| CardPosition.x := Z.of_nat i * (250 + spacing); CardPosition.y := 0;
           CardPosition.width := 250; CardPosition.height := 200;
           CardPosition.zIndex := None |}.
Proof.
  intros Hwf Htype spacing. unfold CardManager.autoArrangeCards. step.
  rewrite mapM_loadCard. step. rewrite Htype, omap_id_map.
  destruct (arrange_loop_ok (CardManager.linear_position spacing) 0
              (omap (fun k => cards s !! k) ids) s Hwf (valid_cards_stored s ids Hwf))
    as (cs & s' & Heq & Hids & Hpos).
  exists cs, s'. split; [exact Heq|]. split; [by rewrite Hids, valid_cards_ids|].
  intros i c Hi. rewrite (Hpos i c Hi). unfold CardManager.linear_position.
  replace (0 + Z.of_nat i) with (Z.of_nat i) by lia. reflexivity.
Qed.

Definition linear_example_layout : ChunkLayout.t :=
  {| ChunkLayout.type := LayoutType.linear; ChunkLayout.columns := None;
     ChunkLayout.spacing := None; ChunkLayout.autoArrange := None |}.

Lemma autoArrangeCards_linear_witness :
  cards_wf grid_example_store /\
  exists cs s', CardManager.autoArrangeCards ["c0"; "c1"]%string linear_example_layout grid_example_store = Ok cs s' /\
    map WritingCard.id cs = filter (fun k => is_Some (cards grid_example_store !! k)) ["c0"; "c1"]%string /\
    forall i c, cs !! i = Some c ->
      WritingCard.position c =
        {| CardPosition.x := Z.of_nat i * (250 + 20); CardPosition.y := 0;
           CardPosition.width := 250; CardPosition.height := 200;
           CardPosition.zIndex := None |}.
Proof.
  split; [exact grid_example_store_wf|].
  exact (autoArrangeCards_linear grid_example_store ["c0"; "c1"]%string linear_example_layout
           grid_example_store_wf eq_refl).
Defined.

(** X19: [updateChunk] with an empty patch on a chunk stored under its own id
    returns that chunk and leaves the store unchanged. *)
Theorem updateChunk_empty_patch (s : Store) (id : string) (ch : ContentChunk.t) :
  chunks s !! id = Some ch -> ContentChunk.id ch = id ->
  CardManager.updateChunk id ChunkPatch.empty s = Ok ch s.
Proof.
  intros H Hid. unfold CardManager.updateChunk. step. rewrite H.
  replace (CardManager.merge_chunk ch ChunkPatch.empty) with ch by (by destruct ch).
  step. rewrite Hid, insert_id by exact H. by destruct s.
Qed.

Lemma updateChunk_empty_patch_witness :
  chunks chunk_example_store !! "ch"%string = Some chunk_example /\
  ContentChunk.id chunk_example = "ch"%string /\
  CardManager.updateChunk "ch" ChunkPatch.empty chunk_example_store = Ok chunk_example chunk_example_store.
Proof.
  assert (H : chunks chunk_example_store !! "ch"%string = Some chunk_example) by (vm_compute; reflexivity).
  split; [exact H|]. split; [reflexivity|]. exact (updateChunk_empty_patch _ _ _ H eq_refl).
Defined.

(** X20: a patch whose [id] differs from the stored id makes [updateCard]
    save the merged card under the new id and keep the old document: the
    card is copied, not renamed. *)
Theorem updateCard_id_patch_copies (s : Store) (id new : string) (upd : CardPatch.t)
    (card : WritingCard.t) :
  cards s !! id = Some card -> CardPatch.id upd = Some new -> new <> id ->
  exists u s', CardManager.updateCard id upd s = Ok u s' /\
    WritingCard.id u = new /\ cards s' !! new = Some u /\ cards s' !! id = Some card.
Proof.
  intros H Hn Hne. rewrite (updateCard_ok _ _ _ _ H).
  rewrite updated_card_id, Hn. cbn [spread]. eexists _, _. split; [reflexivity|].
  split; [rewrite updated_card_id, Hn; reflexivity|]. cbn [cards set_cards].
  split; [by rewrite lookup_insert_eq|]. by rewrite lookup_insert_ne.
Qed.

Definition rename_card_patch : CardPatch.t :=
  {| CardPatch.id := Some "c9"%string; CardPatch.title := None; CardPatch.content := None;
     CardPatch.tags := None; CardPatch.status := None; CardPatch.history := None;
     CardPatch.position := None; CardPatch.metadata := None |}.

Lemma updateCard_id_patch_copies_witness :
  cards grid_example_store !! "c1"%string =
    Some (CardManager.created_card "c1" "c1" None [] None 0) /\
  exists u s', CardManager.updateCard "c1" rename_card_patch grid_example_store = Ok u s' /\
    WritingCard.id u = "c9"%string /\ cards s' !! "c9"%string = Some u /\
    cards s' !! "c1"%string = Some (CardManager.created_card "c1" "c1" None [] None 0).
Proof.
  assert (H : cards grid_example_store !! "c1"%string =
                Some (CardManager.created_card "c1" "c1" None [] None 0)) by (vm_compute; reflexivity).
  split; [exact H|].
  exact (updateCard_id_patch_copies grid_example_store "c1" "c9" rename_card_patch _ H eq_refl
           ltac:(discriminate)).
Defined.

(** X21: [updateChunk] on a stored chunk writes the merged chunk under its
    (possibly new) id and no other chunk document, whether or not the
    auto-arrange step runs or fails; a patch with a different [id] thus
    leaves the old chunk in place (a copy, not a rename). *)
Theorem updateChunk_writes_merged (s : Store) (id : string) (upd : ChunkPatch.t)
    (ch : ContentChunk.t) :
  chunks s !! id = Some ch ->
  let u := CardManager.merge_chunk ch upd in
  chunks (store_of (CardManager.updateChunk id upd s)) = <[ContentChunk.id u := u]> (chunks s) /\
  (forall v s', CardManager.updateChunk id upd s = Ok v s' -> v = u) /\
  (forall new, ChunkPatch.id upd = Some new -> new <> id ->
     chunks (store_of (CardManager.updateChunk id upd s)) !! id = Some ch).
Proof.
  intros H u. destruct (updateChunk_store s id upd ch H) as [E Hv]. fold u in E, Hv.
  split; [exact E|]. split; [exact Hv|]. intros new Hn Hne. rewrite E.
  rewrite lookup_insert_ne; [exact H|]. unfold u, CardManager.merge_chunk. cbn [ContentChunk.id].
  rewrite Hn. cbn [spread]. congruence.
Qed.

Definition rename_chunk_patch : ChunkPatch.t :=
  {| ChunkPatch.id := Some "ch2"%string; ChunkPatch.name := None; ChunkPatch.cardIds := None;
     ChunkPatch.purpose := None; ChunkPatch.layout := None |}.

Lemma updateChunk_writes_merged_witness :
  chunks chunk_example_store !! "ch"%string = Some chunk_example /\
  chunks (store_of (CardManager.updateChunk "ch" rename_chunk_patch chunk_example_store)) !! "ch"%string =
    Some chunk_example.
Proof.
  assert (H : chunks chunk_example_store !! "ch"%string = Some chunk_example) by (vm_compute; reflexivity).
  split; [exact H|].
  exact (proj2 (proj2 (updateChunk_writes_merged chunk_example_store "ch" rename_chunk_patch chunk_example H))
           "ch2" eq_refl ltac:(discriminate)).
Defined.

(* ------------------------------------------------------------------ *)
(** ** Importing text as cards *)

Section ImportLoop.
Import CardManager.

(** The cards the [for] loop of [importTextAsCards] creates from index [i]
    when the fresh-name supply is at [n] and the clock reads [t]. *)
Fixpoint import_cards (n : nat) (i t : Z) (segs : list string) : list WritingCard.t :=
  match segs with
  | [] => []
  | seg :: r =>
      created_card (uuid_of n) (trim seg) (Some (extractTitle (trim seg))) []
        (Some (import_position i)) t :: import_cards (S n) (i + 1) t r
  end.

(** Saving the cards [cs] one after the other. *)
Definition insert_cards (cs : list WritingCard.t) (m : gmap string WritingCard.t) :=
  foldl (fun m c => <[WritingCard.id c := c]> m) m cs.

Lemma import_loop_ok i segs s :
  import_loop i segs s =
    Ok (import_cards (uuid_next s) i (clock s) segs)
       {| cards := insert_cards (import_cards (uuid_next s) i (clock s) segs) (cards s);
          chunks := chunks s; clock := clock s; uuid_next := uuid_next s + List.length segs |}.
Proof.
  revert i s. induction segs as [|seg r IH]; intros i s.
  - destruct s as [cs chs t n]. cbn. by rewrite Nat.add_0_r.
  - cbn [import_loop]. unfold mbind at 1, M_bind at 1. rewrite createCard_ok. cbv zeta.
    unfold mbind at 1, M_bind at 1. rewrite IH. step. cbn [import_cards List.length].
    do 2 f_equal. lia.
Qed.

Lemma import_cards_ids n i t segs :
  map WritingCard.id (import_cards n i t segs) = map uuid_of (seq n (List.length segs)).
Proof.
  revert n i. induction segs as [|seg r IH]; intros n i; [reflexivity|].
  cbn [import_cards map List.length seq]. by rewrite IH.
Qed.

Lemma import_cards_lookup n i t segs j seg :
  segs !! j = Some seg ->
  import_cards n i t segs !! j =
    Some (created_card (uuid_of (n + j)%nat%nat) (trim seg) (Some (extractTitle (trim seg))) []
            (Some (import_position (i + Z.of_nat j))) t).
Proof.
  revert n i j. induction segs as [|seg' r IH]; intros n i j H; [done|].
  destruct j as [|j]; cbn [import_cards].
  - cbn in H. injection H as <-. cbn. do 2 f_equal; [f_equal; lia|]. do 2 f_equal. lia.
  - change ((_ :: ?l) !! S j) with (l !! j). change ((_ :: ?l) !! S j) with (l !! j) in H.
    rewrite (IH (S n) (i + 1) j H). do 2 f_equal; [f_equal; lia|]. do 2 f_equal. lia.
Qed.

Lemma sapp_inj_l p x y : sapp p x = sapp p y -> x = y.
Proof. induction p as [|c p IH]; [done|]. rewrite !sapp_cons. intros H. injection H. exact IH. Qed.

Global Instance uuid_of_inj : Inj (=) (=) uuid_of.
Proof.
  intros a b H. unfold uuid_of in H. apply sapp_inj_l in H.
  apply (inj pretty) in H. by apply Nat2N.inj.
Qed.

Lemma import_cards_NoDup n i t segs : NoDup (map WritingCard.id (import_cards n i t segs)).
Proof.
  rewrite import_cards_ids. change (NoDup (uuid_of <$> seq n (List.length segs))).
  apply NoDup_fmap_2; [apply _|apply NoDup_seq].
Qed.

Lemma insert_cards_lookup cs m k :
  NoDup (map WritingCard.id cs) ->
  (forall c, c ∈ cs -> WritingCard.id c = k -> insert_cards cs m !! k = Some c) /\
  (k ∉ map WritingCard.id cs -> insert_cards cs m !! k = m !! k).
Proof.
  revert m. induction cs as [|c cs IH]; intros m Hnd.
  - split; [intros c Hc; by apply elem_of_nil in Hc|done].
  - apply NoDup_cons in Hnd as [Hn Hnd]. cbn [map] in *. unfold insert_cards. cbn [foldl].
    fold (insert_cards cs (<[WritingCard.id c := c]> m)).
    destruct (IH (<[WritingCard.id c := c]> m) Hnd) as [IH1 IH2]. split.
    + intros c' Hc' Hk. apply elem_of_cons in Hc' as [->|Hc'].
      * rewrite IH2 by (by rewrite <- Hk). rewrite <- Hk. apply lookup_insert_eq.
      * by apply IH1.
    + intros Hk. rewrite IH2 by set_solver. apply lookup_insert_ne. set_solver.
Qed.

Lemma cards_wf_insert_cards cs (s : Store) chs t n :
  cards_wf s ->
  cards_wf {| cards := insert_cards cs (cards s); chunks := chs; clock := t; uuid_next := n |}.
Proof.
  intros Hwf. unfold cards_wf. cbn [cards]. revert s Hwf.
  induction cs as [|c cs IH]; intros s Hwf k c' Hk; [exact (Hwf k c' Hk)|].
  unfold insert_cards in Hk. cbn [foldl] in Hk.
  apply (IH (set_cards (<[WritingCard.id c := c]> (cards s)) s)); [|exact Hk].
  by apply cards_wf_insert.
Qed.

Lemma omap_lookup_ids (m : gmap string WritingCard.t) cs :
  Forall (fun c => m !! WritingCard.id c = Some c) cs ->
  omap (fun k => m !! k) (map WritingCard.id cs) = cs.
Proof. induction 1 as [|c cs Hc _ IH]; [done|]. cbn. rewrite Hc. by rewrite IH. Qed.

Lemma arrange_loop_store pos i cs s :
  cards_wf s -> NoDup (map WritingCard.id cs) ->
  Forall (fun c => cards s !! WritingCard.id c = Some c) cs ->
  exists cs' s', arrange_loop pos i cs s = Ok cs' s' /\ chunks s' = chunks s /\
    (forall j c, cs !! j = Some c -> exists c', cards s' !! WritingCard.id c = Some c' /\
        WritingCard.content c' = WritingCard.content c /\
        WritingCard.title c' = WritingCard.title c /\
        WritingCard.position c' = pos (i + Z.of_nat j)) /\
    (forall k, k ∉ map WritingCard.id cs -> cards s' !! k = cards s !! k).
Proof.
  revert i s. induction cs as [|c r IH]; intros i s Hwf Hnd Hall.
  - exists [], s. split; [reflexivity|]. split; [reflexivity|]. split; [|done].
    intros j c Hj. done.
  - inversion Hall as [|? ? Hc Hr]; subst. apply NoDup_cons in Hnd as [Hn Hnd].
    cbn [arrange_loop]. step. unfold updateCardPosition. rewrite (updateCard_ok _ _ _ _ Hc).
    set (u := updated_card c _ (clock s)).
    assert (Hu : WritingCard.id u = WritingCard.id c /\ WritingCard.content u = WritingCard.content c /\
                 WritingCard.title u = WritingCard.title c /\ WritingCard.position u = pos i)
      by (repeat split).
    destruct Hu as (Hid & Hcont & Htit & Hpos). rewrite Hid.
    set (s1 := set_cards (<[WritingCard.id c := u]> (cards s)) s).
    assert (Hwf1 : cards_wf s1) by (by apply cards_wf_insert).
    assert (Hr1 : Forall (fun c' => cards s1 !! WritingCard.id c' = Some c') r).
    { apply Forall_forall. intros c' Hc'. unfold s1. cbn [cards set_cards].
      rewrite lookup_insert_ne.
      - by apply (proj1 (Forall_forall _ _) Hr).
      - intros E. apply Hn. rewrite E. by apply (list_elem_of_fmap_2 WritingCard.id). }
    destruct (IH (i + 1) s1 Hwf1 Hnd Hr1) as (cs'' & s'' & Heq & Hch & Hpos'' & Hframe).
    rewrite Heq. step. eexists _, _. split; [reflexivity|].
    split; [rewrite Hch; reflexivity|]. split.
    + intros [|j] c' Hj.
      * injection Hj as <-. exists u. rewrite Hframe by exact Hn. unfold s1. cbn [cards set_cards].
        rewrite lookup_insert_eq. split; [reflexivity|]. split; [exact Hcont|]. split; [exact Htit|].
        rewrite Hpos. f_equal. lia.
      * cbn in Hj. destruct (Hpos'' j c' Hj) as (c'' & H1 & H2 & H3 & H4).
        exists c''. split; [exact H1|]. split; [exact H2|]. split; [exact H3|].
        rewrite H4. f_equal. lia.
    + intros k Hk. rewrite Hframe by set_solver. unfold s1. cbn [cards set_cards].
      apply lookup_insert_ne. set_solver.
Qed.

Lemma or_str_same t : or_str (Some t) t = t.
Proof. unfold or_str. by destruct (truthy_str t). Qed.

Lemma grid_import_position i : grid_position 3 20 i = import_position i.
Proof. reflexivity. Qed.

Lemma map_seq_shift {A} (f : nat -> A) n len :
  map f (seq n len) = map (fun j => f (n + j)%nat) (seq 0 len).
Proof.
  revert f n. induction len as [|len IH]; intros f n; [reflexivity|].
  cbn [seq map]. rewrite Nat.add_0_r. f_equal. rewrite IH, (IH _ 1%nat).
  apply map_ext. intros j. f_equal. lia.
Qed.

(** What [importTextAsCards] does with the [segments] it computed. *)
Lemma import_segments_ok s segs name :
  cards_wf s ->
  let n := uuid_next s in
  exists ch s',
    (cards ← import_loop 0 segs;
     createChunk name (map WritingCard.id cards) "imported-text" default_layout) s = Ok ch s' /\
    ContentChunk.cardIds ch = map (fun j => uuid_of (n + j)%nat%nat) (seq 0 (List.length segs)) /\
    ContentChunk.id ch = uuid_of (n + List.length segs)%nat /\ ContentChunk.name ch = name /\
    ContentChunk.purpose ch = "imported-text"%string /\ ContentChunk.layout ch = default_layout /\
    chunks s' !! ContentChunk.id ch = Some ch /\
    (forall j seg, segs !! j = Some seg ->
      exists c, cards s' !! uuid_of (n + j)%nat%nat = Some c /\ WritingCard.content c = trim seg /\
        WritingCard.title c = extractTitle (trim seg) /\
        WritingCard.position c = import_position (Z.of_nat j)) /\
    (forall k, k ∉ ContentChunk.cardIds ch -> cards s' !! k = cards s !! k).
Proof.
  intros Hwf n. unfold mbind at 1, M_bind at 1. rewrite import_loop_ok.
  set (cs := import_cards (uuid_next s) 0 (clock s) segs).
  assert (Hnd : NoDup (map WritingCard.id cs)) by apply import_cards_NoDup.
  assert (Hids : map WritingCard.id cs = map (fun j => uuid_of (n + j)%nat%nat) (seq 0 (List.length segs))).
  { unfold cs. rewrite import_cards_ids. apply map_seq_shift. }
  set (m := insert_cards cs (cards s)).
  assert (Hin : forall c, c ∈ cs -> m !! WritingCard.id c = Some c).
  { intros c Hc. by apply (proj1 (insert_cards_lookup cs (cards s) (WritingCard.id c) Hnd)). }
  assert (Hcs : forall j seg, segs !! j = Some seg -> exists c, cs !! j = Some c /\
     WritingCard.id c = uuid_of (n + j)%nat%nat /\ WritingCard.content c = trim seg /\
     WritingCard.title c = extractTitle (trim seg) /\
     WritingCard.position c = import_position (Z.of_nat j)).
  { intros j seg Hj. eexists. split; [unfold cs; apply (import_cards_lookup _ _ _ _ _ _ Hj)|].
    unfold created_card. cbn [WritingCard.id WritingCard.content WritingCard.title WritingCard.position spread].
    rewrite or_str_same. repeat split. }
  unfold createChunk. step. cbn [set_chunks chunks].
  set (ch := {| ContentChunk.id := uuid_of (uuid_next s + List.length segs)%nat; ContentChunk.name := name;
                ContentChunk.cardIds := map WritingCard.id cs;
                ContentChunk.purpose := "imported-text"; ContentChunk.layout := default_layout |}).
  set (s2 := {| cards := m; chunks := <[ContentChunk.id ch := ch]> (chunks s);
                clock := clock s; uuid_next := S (uuid_next s + List.length segs)%nat |}).
  assert (Hch : chunks s2 !! ContentChunk.id ch = Some ch) by apply lookup_insert_eq.
  assert (Hlen : List.length (map WritingCard.id cs) = List.length segs).
  { by rewrite Hids, length_map, length_seq. }
  destruct segs as [|seg0 segs'] eqn:Hsegs.
  - eexists _, _. split; [reflexivity|].
    split; [exact Hids|]. split; [reflexivity|]. split; [reflexivity|]. split; [reflexivity|].
    split; [reflexivity|]. split; [exact Hch|]. split; [intros j seg Hj; done|].
    intros k _. reflexivity.
  - assert (Hpos : (0 <? List.length (map WritingCard.id cs))%nat = true).
    { rewrite Hlen. reflexivity. }
    cbn [ChunkLayout.autoArrange default_layout]. rewrite Hpos.
    change (bool_decide (Some true = Some true)) with true. cbn [andb].
    unfold autoArrangeCards. step. rewrite mapM_loadCard. step. rewrite omap_id_map.
    fold s2. replace (omap (fun k => cards s2 !! k) (map WritingCard.id cs)) with cs.
    2:{ symmetry. apply omap_lookup_ids. apply Forall_forall. exact Hin. }
    cbn [ChunkLayout.type default_layout ChunkLayout.columns ChunkLayout.spacing or_num Z.eqb].
    assert (Hwf2 : cards_wf s2).
    { apply (cards_wf_insert_cards cs s). exact Hwf. }
    destruct (arrange_loop_store (grid_position 3 20) 0 cs s2 Hwf2 Hnd)
      as (cs' & s' & Heq & Hchs & Hposs & Hframe).
    { apply Forall_forall. exact Hin. }
    change (set_chunks (<[ContentChunk.id ch:=ch]> (chunks s)) _) with s2.
    rewrite Heq. step. eexists _, _. split; [reflexivity|].
    split; [exact Hids|]. split; [reflexivity|]. split; [reflexivity|]. split; [reflexivity|].
    split; [reflexivity|]. split; [rewrite Hchs; exact Hch|]. split.
    + intros j seg Hj. destruct (Hcs j seg Hj) as (c & Hcj & Hcid & Hcc & Hct & _).
      destruct (Hposs j c Hcj) as (c' & H1 & H2 & H3 & H4). exists c'.
      rewrite <- Hcid. split; [exact H1|]. split; [congruence|]. split; [congruence|].
      rewrite H4, grid_import_position. f_equal.
    + intros k Hk. rewrite (Hframe k Hk). exact (proj2 (insert_cards_lookup cs (cards s) k Hnd) Hk).
Qed.

End ImportLoop.

Section ImportText.
Import CardManager.

Lemma chars_sapp a b :
  list_ascii_of_string (sapp a b) = list_ascii_of_string a ++ list_ascii_of_string b.
Proof. induction a as [|c a IH]; [by rewrite sapp_nil_l|]. rewrite sapp_cons, !chars_cons, IH. reflexivity. Qed.

Lemma ws_sapp a b :
  Forall (fun c => is_ws c = true) (list_ascii_of_string a) ->
  Forall (fun c => is_ws c = true) (list_ascii_of_string b) ->
  Forall (fun c => is_ws c = true) (list_ascii_of_string (sapp a b)).
Proof. intros Ha Hb. rewrite chars_sapp. by apply Forall_app. Qed.

Lemma ws_single c : is_ws c = true ->
  Forall (fun c => is_ws c = true) (list_ascii_of_string (String c EmptyString)).
Proof. intros H. rewrite chars_cons. by constructor. Qed.

(** A whitespace-only text is cut by [split(/\n\s*\n/)] into
    whitespace-only pieces. *)
Lemma split_blank_aux_ws s mode cur pend :
  Forall (fun c => is_ws c = true) (list_ascii_of_string s) ->
  Forall (fun c => is_ws c = true) (list_ascii_of_string cur) ->
  Forall (fun c => is_ws c = true) (list_ascii_of_string pend) ->
  Forall (fun w => Forall (fun c => is_ws c = true) (list_ascii_of_string w))
    (split_blank_aux s mode cur pend).
Proof.
  revert mode cur pend. induction s as [|c r IH]; intros mode cur pend Hs Hcur Hpend.
  - destruct mode; cbn; repeat constructor; try assumption. by apply ws_sapp.
  - rewrite chars_cons in Hs. inversion Hs as [|? ? Hc Hr]; subst.
    destruct mode; cbn [split_blank_aux].
    + destruct (is_nl c); apply IH; auto using ws_single, ws_sapp.
    + destruct (is_nl c); [constructor; [exact Hcur|]; apply IH; auto; constructor|].
      rewrite Hc. apply IH; auto using ws_single, ws_sapp.
    + destruct (is_nl c); [apply IH; auto; constructor|].
      rewrite Hc. apply IH; auto using ws_single, ws_sapp; constructor.
Qed.

(** The same for [split(/[...]+/)]. *)
Lemma split_runs_aux_ws p s cur inrun :
  Forall (fun c => is_ws c = true) (list_ascii_of_string s) ->
  Forall (fun c => is_ws c = true) (list_ascii_of_string cur) ->
  Forall (fun w => Forall (fun c => is_ws c = true) (list_ascii_of_string w))
    (split_runs_aux p s cur inrun).
Proof.
  revert cur inrun. induction s as [|c r IH]; intros cur inrun Hs Hcur.
  - by repeat constructor.
  - rewrite chars_cons in Hs. inversion Hs as [|? ? Hc Hr]; subst. cbn [split_runs_aux].
    destruct (p c); [destruct inrun; [apply IH; auto|constructor; [exact Hcur|apply IH; auto; constructor]]|].
    apply IH; auto using ws_single, ws_sapp.
Qed.

Lemma trim_all_ws w :
  Forall (fun c => is_ws c = true) (list_ascii_of_string w) -> trim w = EmptyString.
Proof.
  intros H. unfold trim. enough (ltrim w = EmptyString) as -> by reflexivity.
  induction w as [|c r IH]; [reflexivity|]. rewrite chars_cons in H.
  inversion H as [|? ? Hc Hr]; subst. cbn. rewrite Hc. by apply IH.
Qed.

Lemma rtrim_empty_ws u :
  rtrim u = EmptyString -> Forall (fun c => is_ws c = true) (list_ascii_of_string u).
Proof.
  induction u as [|c r IH]; [constructor|]. cbn [rtrim]. rewrite chars_cons.
  destruct (rtrim r) eqn:E; [|discriminate].
  destruct (is_ws c) eqn:Ec; [|discriminate]. intros _. constructor; [exact Ec|by apply IH].
Qed.

Lemma ltrim_ws w :
  Forall (fun c => is_ws c = true) (list_ascii_of_string (ltrim w)) ->
  Forall (fun c => is_ws c = true) (list_ascii_of_string w).
Proof.
  induction w as [|c r IH]; [done|]. cbn [ltrim]. destruct (is_ws c) eqn:Ec; [|done].
  intros H. rewrite chars_cons. constructor; [exact Ec|by apply IH].
Qed.

Lemma trim_empty_ws w :
  trim w = EmptyString -> Forall (fun c => is_ws c = true) (list_ascii_of_string w).
Proof. intros H. apply ltrim_ws, rtrim_empty_ws, H. Qed.

Lemma filter_blank l :
  Forall (fun w => Forall (fun c => is_ws c = true) (list_ascii_of_string w)) l ->
  filter (fun s => (0 < String.length (trim s))%nat) l = [].
Proof.
  induction 1 as [|w l Hw _ IH]; [done|]. rewrite filter_cons_False; [exact IH|].
  rewrite (trim_all_ws w Hw). cbn. lia.
Qed.

Lemma map_trim_filter l :
  map trim (filter (fun s => (0 < String.length (trim s))%nat) l) =
  filter (fun p => (0 < String.length p)%nat) (map trim l).
Proof.
  induction l as [|a l IH]; [done|]. cbn [map]. rewrite !filter_cons.
  destruct (decide (0 < String.length (trim a))%nat); cbn [map]; by rewrite IH.
Qed.

Lemma map_seq_lookup {A B} (F : nat -> B) (h : A -> B) (l : list A) k :
  (forall j x, l !! j = Some x -> F (k + j)%nat = h x) ->
  map F (seq k (List.length l)) = map h l.
Proof.
  revert k. induction l as [|x l IH]; intros k H; [done|]. cbn [List.length seq map].
  f_equal.
  - rewrite <- (Nat.add_0_r k) at 1. by apply H.
  - apply IH. intros j y Hj. replace (S k + j)%nat with (k + S j)%nat by lia. by apply (H (S j)).
Qed.

End ImportText.

Section ImportTheorems.
Import CardManager.

(** X22: [importTextAsCards(text, chunkName, splitBy)] creates one card per
    segment, in order: the [j]-th card gets the next fresh id, the trimmed
    segment as content, its [extractTitle] as title, and grid slot [j] of
    three columns spaced 270 by 220 as position; then it creates and stores
    a chunk named [chunkName] with purpose imported-text, the default grid
    layout, the next fresh id and the card ids in segment order. *)
Theorem importTextAsCards_cards (s : Store) (text name : string) (splitBy : SplitBy) :
  cards_wf s ->
  let segs := import_segments text splitBy in
  let n := uuid_next s in
  exists ch s',
    importTextAsCards text name splitBy s = Ok ch s' /\
    ContentChunk.cardIds ch = map (fun j => uuid_of (n + j)%nat) (seq 0 (List.length segs)) /\
    ContentChunk.id ch = uuid_of (n + List.length segs)%nat /\ ContentChunk.name ch = name /\
    ContentChunk.purpose ch = "imported-text"%string /\ ContentChunk.layout ch = default_layout /\
    chunks s' !! ContentChunk.id ch = Some ch /\
    forall j seg, segs !! j = Some seg ->
      exists c, cards s' !! uuid_of (n + j)%nat = Some c /\ WritingCard.content c = trim seg /\
        WritingCard.title c = extractTitle (trim seg) /\
        WritingCard.position c = import_position (Z.of_nat j).
Proof.
  intros Hwf segs n.
  destruct (import_segments_ok s segs name Hwf) as (ch & s' & H1 & H2 & H3 & H4 & H5 & H6 & H7 & H8 & _).
  exists ch, s'. repeat split; assumption.
Qed.

Lemma importTextAsCards_cards_witness :
  cards_wf grid_example_store /\
  let segs := import_segments "First.

Second."%string paragraph in
  let n := uuid_next grid_example_store in
  exists ch s',
    importTextAsCards "First.

Second."%string "notes" paragraph grid_example_store = Ok ch s' /\
    ContentChunk.cardIds ch = map (fun j => uuid_of (n + j)%nat) (seq 0 (List.length segs)) /\
    ContentChunk.id ch = uuid_of (n + List.length segs)%nat /\ ContentChunk.name ch = "notes"%string /\
    ContentChunk.purpose ch = "imported-text"%string /\ ContentChunk.layout ch = default_layout /\
    chunks s' !! ContentChunk.id ch = Some ch /\
    forall j seg, segs !! j = Some seg ->
      exists c, cards s' !! uuid_of (n + j)%nat = Some c /\ WritingCard.content c = trim seg /\
        WritingCard.title c = extractTitle (trim seg) /\
        WritingCard.position c = import_position (Z.of_nat j).
Proof.
  split; [exact grid_example_store_wf|].
  exact (importTextAsCards_cards grid_example_store _ _ paragraph grid_example_store_wf).
Defined.

(** X23: in paragraph mode, the contents of the cards listed by the returned
    chunk, read back from storage in [cardIds] order, are exactly
    [detectParagraphs(text)]. *)
Theorem importTextAsCards_paragraphs (s : Store) (text name : string) :
  cards_wf s ->
  exists ch s',
    importTextAsCards text name paragraph s = Ok ch s' /\
    map (fun k => option_map WritingCard.content (cards s' !! k)) (ContentChunk.cardIds ch) =
    map Some (detectParagraphs text).
Proof.
  intros Hwf.
  destruct (import_segments_ok s (import_segments text paragraph) name Hwf)
    as (ch & s' & Hrun & Hids & _ & _ & _ & _ & _ & Hc & _).
  exists ch, s'. split; [exact Hrun|]. rewrite Hids, map_map.
  rewrite (map_seq_lookup _ (fun seg => Some (trim seg))).
  - rewrite <- (map_map trim Some). f_equal. unfold detectParagraphs, import_segments.
    apply map_trim_filter.
  - intros j x Hj. destruct (Hc j x Hj) as (c & H1 & H2 & _). cbv beta.
    rewrite Nat.add_0_l, H1. cbn. by rewrite H2.
Qed.

Lemma importTextAsCards_paragraphs_witness :
  cards_wf grid_example_store /\
  exists ch s',
    importTextAsCards "First.

Second."%string "notes" paragraph grid_example_store = Ok ch s' /\
    map (fun k => option_map WritingCard.content (cards s' !! k)) (ContentChunk.cardIds ch) =
    map Some (detectParagraphs "First.

Second."%string).
Proof.
  split; [exact grid_example_store_wf|].
  exact (importTextAsCards_paragraphs grid_example_store _ _ grid_example_store_wf).
Defined.

Lemma import_no_segments s name :
  exists ch s',
    (cards ← import_loop 0 [];
     createChunk name (map WritingCard.id cards) "imported-text" default_layout) s = Ok ch s' /\
    ContentChunk.cardIds ch = [] /\ cards s' = cards s.
Proof.
  cbn [import_loop]. unfold createChunk. step. cbn [map List.length andb Nat.ltb Nat.leb].
  rewrite andb_false_r. step. eexists _, _. split; [reflexivity|]. split; reflexivity.
Qed.

(** X24: importing a text that is empty or only whitespace creates no card in
    paragraph and sentence mode (the chunk lists no card and the card
    documents are unchanged), while custom mode creates exactly one card,
    under the next fresh id, with empty content and the title Untitled
    Card, and changes no other card document. *)
Theorem importTextAsCards_blank (s : Store) (text name : string) :
  cards_wf s -> trim text = EmptyString ->
  (exists ch s', importTextAsCards text name paragraph s = Ok ch s' /\
     ContentChunk.cardIds ch = [] /\ cards s' = cards s) /\
  (exists ch s', importTextAsCards text name sentence s = Ok ch s' /\
     ContentChunk.cardIds ch = [] /\ cards s' = cards s) /\
  (exists ch s' c, importTextAsCards text name custom s = Ok ch s' /\
     ContentChunk.cardIds ch = [uuid_of (uuid_next s)] /\
     cards s' !! uuid_of (uuid_next s) = Some c /\
     WritingCard.content c = EmptyString /\ WritingCard.title c = "Untitled Card"%string /\
     forall k, k <> uuid_of (uuid_next s) -> cards s' !! k = cards s !! k).
Proof.
  intros Hwf Ht. pose proof (trim_empty_ws text Ht) as Hws.
  assert (Hp : import_segments text paragraph = []).
  { apply filter_blank, split_blank_aux_ws; [exact Hws|constructor|constructor]. }
  assert (Hs : import_segments text sentence = []).
  { apply filter_blank, split_runs_aux_ws; [exact Hws|constructor]. }
  split; [|split].
  - unfold importTextAsCards. rewrite Hp. apply import_no_segments.
  - unfold importTextAsCards. rewrite Hs. apply import_no_segments.
  - destruct (import_segments_ok s (import_segments text custom) name Hwf)
      as (ch & s' & Hrun & Hids & _ & _ & _ & _ & _ & Hc & Hframe).
    destruct (Hc 0%nat text eq_refl) as (c & H1 & H2 & H3 & _).
    rewrite Nat.add_0_r in H1.
    assert (Hids' : ContentChunk.cardIds ch = [uuid_of (uuid_next s)]).
    { rewrite Hids. cbn. by rewrite Nat.add_0_r. }
    exists ch, s', c. split; [exact Hrun|].
    split; [exact Hids'|]. split; [exact H1|].
    rewrite H2, H3, Ht. split; [reflexivity|]. split; [reflexivity|].
    intros k Hk. apply Hframe. rewrite Hids'. set_solver.
Qed.

Lemma importTextAsCards_blank_witness :
  cards_wf grid_example_store /\ trim " 	 "%string = EmptyString /\
  (exists ch s', importTextAsCards " 	 "%string "empty" paragraph grid_example_store = Ok ch s' /\
     ContentChunk.cardIds ch = [] /\ cards s' = cards grid_example_store) /\
  (exists ch s', importTextAsCards " 	 "%string "empty" sentence grid_example_store = Ok ch s' /\
     ContentChunk.cardIds ch = [] /\ cards s' = cards grid_example_store) /\
  (exists ch s' c, importTextAsCards " 	 "%string "empty" custom grid_example_store = Ok ch s' /\
     ContentChunk.cardIds ch = [uuid_of (uuid_next grid_example_store)] /\
     cards s' !! uuid_of (uuid_next grid_example_store) = Some c /\
     WritingCard.content c = EmptyString /\ WritingCard.title c = "Untitled Card"%string /\
     forall k, k <> uuid_of (uuid_next grid_example_store) ->
       cards s' !! k = cards grid_example_store !! k).
Proof.
  split; [exact grid_example_store_wf|]. split; [reflexivity|].
  apply (importTextAsCards_blank grid_example_store _ _ grid_example_store_wf). reflexivity.
Defined.

End ImportTheorems.
